(** * duckdb-version-manager: the version manager (package manager)

    A shallow embedding of [versionManagerImpl] and its methods, and the
    properties of the manager stated in the specification.

    The manager owns an in-memory [LocalConfig] and talks to the outside
    world (release client, file system, clock, process launcher, standard
    output).  Every call that leaves the process is recorded, in order, in
    a [history]; what the outside world answers is given by an
    environment [Env], whose answers may depend on everything that
    happened before.  Go errors are ordinary return values and are
    modelled as such; a nil-pointer dereference or [version.Must] on an
    error is a panic, and a successful [syscall.Exec] never returns. *)

From Stdlib Require Import ZArith Lia Ascii String.
From stdpp Require Import base option strings list gmap fin_maps sorting pretty.

Open Scope string_scope.
Open Scope list_scope.

(** ** Data model (package models) *)

Record LocalInstallationInfo : Type := {
  Version : string;
  Location : string;
  InstallationDate : string;
}.

(** The zero value of the struct, what a Go map lookup yields on a miss. *)
Definition zeroLocalInstallationInfo : LocalInstallationInfo :=
  {| Version := ""; Location := ""; InstallationDate := "" |}.

(** [LocalInstallations] is an initialised Go map.  The constructor of the
    manager and the loader of the config file are not among the sources
    embedded here; a map they left nil would read like the empty map and
    panic at the assignment in [InstallVersion], after the binary was
    written and before the config is saved.  That run is outside this
    record, so no statement below rests on the assignment being safe
    except through this assumption. *)
Record LocalConfig : Type := {
  DefaultVersion : option string;
  LocalInstallations : gmap string LocalInstallationInfo;
}.

(** Release metadata as the manager consumes it: it reads the version, and
    hands the rest to [utils.GetDownloadUrlFrom]. *)
Record Release : Type := {
  Release_Version : string;
  Release_Assets : list (string * string);
}.

Inductive Platform : Type := PlatformWindows | PlatformUnix.

Definition bytes : Type := list Byte.byte.

(** ** Errors (package stacktrace and the os errors it wraps) *)

Inductive OsError : Type :=
| ErrNotExist
| ErrOther (msg : string).

Definition os_IsNotExist (e : OsError) : bool :=
  match e with ErrNotExist => true | ErrOther _ => false end.

Inductive Error : Type :=
| NewF (format : string) (arg : string)
| Wrap (cause : OsError)
| Remote (msg : string).

(** [stacktrace.Wrap] of an optional os error: nil stays nil. *)
Definition Wrap_opt (e : option OsError) : option Error := Wrap <$> e.

(** ** Time (package time) *)

(** Instants and durations in nanoseconds; instants count from the zero
    [time.Time], which is what [time.Parse] returns next to an error. *)
Definition Time : Type := Z.
Definition Duration : Type := Z.

Definition zeroTime : Time := 0%Z.
Definition minDuration : Duration := (- 2 ^ 63)%Z.
Definition maxDuration : Duration := (2 ^ 63 - 1)%Z.
Definition Millisecond : Duration := 1000000%Z.
Definition Hour : Duration := 3600000000000%Z.

(** [t.Sub(u)]: the difference, saturated to the range of a Duration. *)
Definition Time_Sub (t u : Time) : Duration :=
  if (maxDuration <? t - u)%Z then maxDuration
  else if (t - u <? minDuration)%Z then minDuration
  else (t - u)%Z.

(** ** The outside world *)

Inductive event : Type :=
| EvGetRelease (version : string)
| EvLatestDuckVmRelease (timeout : Duration)
| EvGetResponseBodyFrom (url : string)
| EvWriteFile (name : string) (data : bytes)
| EvRemove (name : string)
| EvLstat (name : string)
| EvSymlink (oldname newname : string)
| EvCopyFile (src dst : string)
| EvNow
| EvStartProcess (name : string) (argv : list string)
| EvWait
| EvExec (argv0 : string) (argv : list string)
| EvPrintln (line : string).

Abbreviation history := (list event).

(** A parsed version of hashicorp/go-version, as far as the manager uses
    it: something [NewVersion] may produce and [GreaterThan] compares. *)
Record VersionLib : Type := {
  VersionT : Type;
  NewVersion : string → option VersionT;
  GreaterThan : VersionT → VersionT → bool;
}.

Record Env : Type := {
  (* package config *)
  config_VersionDir : string;
  config_DuckDBName : string;
  config_File : string;
  config_DefaultDuckdbFile : string;
  config_Version : string;
  (* api.Client *)
  client_GetRelease : history → string → Error + Release;
  client_LatestDuckVmRelease : history → Duration → Error + Release;
  (* package utils *)
  utils_GetDownloadUrlFrom : Release → Error + string;
  utils_GetResponseBodyFrom : history → string → Error + bytes;
  utils_ExtractDuckdbFile : bytes → Error + bytes;
  utils_CopyFile : history → string → string → option Error;
  utils_GetDeviceInfo_Platform : Platform;
  (* os, syscall *)
  os_WriteFile : history → string → bytes → option OsError;
  os_Remove : history → string → option OsError;
  os_Lstat : history → string → option OsError;
  os_Symlink : history → string → string → option OsError;
  os_StartProcess : history → string → list string → option OsError;
  process_Wait : history → option OsError;
  syscall_Exec : history → string → list string → option OsError;
  (* time *)
  time_Now : history → Time;
  time_MarshalText : Time → string;
  time_Parse_RFC3339 : string → option Time;
  (* encoding/json *)
  json_MarshalIndent : LocalConfig → OsError + bytes;
  (* hashicorp/go-version *)
  version_lib : VersionLib;
}.

(** ** The manager's state and its computations *)

Record state : Type := {
  localConfig : LocalConfig;
  past : history;
}.

Inductive outcome (A : Type) : Type :=
| Returns (a : A)
| Panics
| Replaced.
Arguments Returns {A} a.
Arguments Panics {A}.
Arguments Replaced {A}.

Definition M (A : Type) : Type := state → outcome A * state.

Definition ret {A} (a : A) : M A := λ st, (Returns a, st).

Definition bind {A B} (m : M A) (k : A → M B) : M B :=
  λ st, match m st with
        | (Returns a, st') => k a st'
        | (Panics, st') => (Panics, st')
        | (Replaced, st') => (Replaced, st')
        end.

#[global] Instance M_ret : MRet M := @ret.
#[global] Instance M_bind : MBind M := λ A B k m, bind m k.

Definition panic {A} : M A := λ st, (Panics, st).
Definition replaced {A} : M A := λ st, (Replaced, st).

Definition get_config : M LocalConfig := λ st, (Returns (localConfig st), st).

Definition put_config (c : LocalConfig) : M unit :=
  λ st, (Returns tt, {| localConfig := c; past := past st |}).

(** One call to the outside world: the answer is computed from what
    happened so far, and the call joins the history. *)
Definition perform {A} (e : event) (answer : history → A) : M A :=
  λ st, (Returns (answer (past st)),
         {| localConfig := localConfig st; past := past st ++ [e] |}).

(** ** Version resolution *)

Definition VersionIsInstalled_in (c : LocalConfig) (version : string) : bool :=
  match LocalInstallations c !! version with
  | Some _ => true
  | None =>
      match LocalInstallations c !! ("v" +:+ version) with
      | Some _ => true
      | None => false
      end
  end.

Definition GetLocalReleaseInfo_in (c : LocalConfig) (version : string)
  : Error + LocalInstallationInfo :=
  match LocalInstallations c !! version with
  | Some li => inr li
  | None =>
      match LocalInstallations c !! ("v" +:+ version) with
      | Some li => inr li
      | None => inl (NewF "Version '%s' not found in local versions" version)
      end
  end.

Definition GetDefaultVersion_in (c : LocalConfig) : option LocalInstallationInfo :=
  match DefaultVersion c with
  | None => None
  | Some d => Some (default zeroLocalInstallationInfo (LocalInstallations c !! d))
  end.

Definition VersionIsInstalled (version : string) : M bool :=
  c ← get_config; ret (VersionIsInstalled_in c version).

Definition GetLocalReleaseInfo (version : string)
  : M (Error + LocalInstallationInfo) :=
  c ← get_config; ret (GetLocalReleaseInfo_in c version).

Definition GetDefaultVersion : M (option LocalInstallationInfo) :=
  c ← get_config; ret (GetDefaultVersion_in c).

(** ** The manager's operations *)

Section Manager.
Context (env : Env).

Definition saveConfig : M (option Error) :=
  c ← get_config;
  match json_MarshalIndent env c with
  | inl err => ret (Some (Wrap err))
  | inr configAsBytes =>
      err ← perform (EvWriteFile (config_File env) configAsBytes)
                    (λ h, os_WriteFile env h (config_File env) configAsBytes);
      match err with
      | Some e => ret (Some (Wrap e))
      | None => ret None
      end
  end.

Definition InstallVersion (version : string) : M (option Error) :=
  r ← perform (EvGetRelease version) (λ h, client_GetRelease env h version);
  match r with
  | inl err => ret (Some err)
  | inr release =>
  match utils_GetDownloadUrlFrom env release with
  | inl err => ret (Some err)
  | inr downloadUrl =>
  r ← perform (EvGetResponseBodyFrom downloadUrl)
              (λ h, utils_GetResponseBodyFrom env h downloadUrl);
  match r with
  | inl err => ret (Some err)
  | inr githubAsset =>
  match utils_ExtractDuckdbFile env githubAsset with
  | inl err => ret (Some err)
  | inr duckDb =>
  let fileLocation :=
    config_VersionDir env +:+ "/" +:+ config_DuckDBName env +:+ "-"
      +:+ Release_Version release in
  err ← perform (EvWriteFile fileLocation duckDb)
                (λ h, os_WriteFile env h fileLocation duckDb);
  match err with
  | Some e => ret (Some (Wrap e))
  | None =>
  now ← perform EvNow (time_Now env);
  let installTime := time_MarshalText env now in
  c ← get_config;
  put_config
    {| DefaultVersion := DefaultVersion c;
       LocalInstallations :=
         <[Release_Version release :=
             {| Version := Release_Version release;
                Location := fileLocation;
                InstallationDate := installTime |}]> (LocalInstallations c) |};;
  saveConfig
  end end end end end.

Definition symlink (from to : string) : M (option Error) :=
  match utils_GetDeviceInfo_Platform env with
  | PlatformWindows =>
      perform (EvCopyFile from to) (λ h, utils_CopyFile env h from to)
  | PlatformUnix =>
      err ← perform (EvSymlink from to) (λ h, os_Symlink env h from to);
      ret (Wrap_opt err)
  end.

Definition SetDefaultVersion (version : option string) : M (option Error) :=
  lst ← perform (EvLstat (config_DefaultDuckdbFile env))
                (λ h, os_Lstat env h (config_DefaultDuckdbFile env));
  err ← match lst with
        | None =>
            perform (EvRemove (config_DefaultDuckdbFile env))
                    (λ h, os_Remove env h (config_DefaultDuckdbFile env))
        | Some _ => ret None
        end;
  match err with
  | Some e => ret (Some (Wrap e))
  | None =>
  match version with
  | None =>
      c ← get_config;
      put_config {| DefaultVersion := None;
                    LocalInstallations := LocalInstallations c |};;
      saveConfig
  | Some version =>
      installed ← VersionIsInstalled version;
      err ← (if negb installed then InstallVersion version else ret None);
      match err with
      | Some e => ret (Some e)
      | None =>
      r ← GetLocalReleaseInfo version;
      match r with
      | inl _ => panic
      | inr versionToInstall =>
      err ← symlink (Location versionToInstall) (config_DefaultDuckdbFile env);
      match err with
      | Some e => ret (Some e)
      | None =>
      c ← get_config;
      put_config {| DefaultVersion := Some (Version versionToInstall);
                    LocalInstallations := LocalInstallations c |};;
      saveConfig
      end end end
  end end.

Definition UninstallVersion (unreliableVersion : string) : M (option Error) :=
  installed ← VersionIsInstalled unreliableVersion;
  if negb installed
  then ret (Some (NewF "Version '%s' not installed" unreliableVersion))
  else
  r ← GetLocalReleaseInfo unreliableVersion;
  match r with
  | inl _ => panic
  | inr release =>
  c ← get_config;
  err ← (if bool_decide (DefaultVersion c = Some (Version release))
         then SetDefaultVersion None else ret None);
  match err with
  | Some e => ret (Some e)
  | None =>
  c ← get_config;
  let name :=
    Location (default zeroLocalInstallationInfo
                      (LocalInstallations c !! Version release)) in
  err ← perform (EvRemove name) (λ h, os_Remove env h name);
  match err with
  | Some e =>
      if negb (os_IsNotExist e) then ret (Some (Wrap e))
      else
        c ← get_config;
        put_config {| DefaultVersion := DefaultVersion c;
                      LocalInstallations :=
                        delete (Version release) (LocalInstallations c) |};;
        saveConfig
  | None =>
      c ← get_config;
      put_config {| DefaultVersion := DefaultVersion c;
                    LocalInstallations :=
                      delete (Version release) (LocalInstallations c) |};;
      saveConfig
  end end end.

Definition execWindows (args : list string) : M (option Error) :=
  match args with
  | [] => panic
  | name :: _ =>
      err ← perform (EvStartProcess name args)
                    (λ h, os_StartProcess env h name args);
      match err with
      | Some e => ret (Some (Wrap e))
      | None =>
          err ← perform EvWait (process_Wait env);
          match err with
          | Some e => ret (Some (Wrap e))
          | None => ret None
          end
      end
  end.

Definition execUnix (args : list string) : M (option Error) :=
  match args with
  | [] => panic
  | argv0 :: _ =>
      err ← perform (EvExec argv0 args) (λ h, syscall_Exec env h argv0 args);
      match err with
      | Some e => ret (Some (Wrap e))
      | None => replaced
      end
  end.

Definition exec (args : list string) : M (option Error) :=
  match utils_GetDeviceInfo_Platform env with
  | PlatformWindows => execWindows args
  | PlatformUnix => execUnix args
  end.

Definition isOlderThanOneDay (now installationTime : Time) : bool :=
  (24 * Hour <? Time_Sub now installationTime)%Z.

Definition Run (version : string) (args : list string) : M (option Error) :=
  installed ← VersionIsInstalled version;
  err ← (if negb installed then InstallVersion version else ret None);
  match err with
  | Some e => ret (Some e)
  | None =>
  r ← GetLocalReleaseInfo version;
  match r with
  | inl _ => panic
  | inr release =>
  let installationTime :=
    default zeroTime (time_Parse_RFC3339 env (InstallationDate release)) in
  now ← perform EvNow (time_Now env);
  err ← (if String.eqb (Version release) "nightly"
            && isOlderThanOneDay now installationTime
         then InstallVersion version else ret None);
  match err with
  | Some e => ret (Some e)
  | None => exec (Location release :: args)
  end end end.

Definition updateAdvisory : string :=
  String "010"%char
    "A new version of duckman is available. Run 'duckman update-self' to update.".

Definition ShowUpdateWarning : M unit :=
  r ← perform (EvLatestDuckVmRelease (Millisecond * 100)%Z)
              (λ h, client_LatestDuckVmRelease env h (Millisecond * 100)%Z);
  match r with
  | inl _ => ret tt
  | inr latestRelease =>
  match NewVersion (version_lib env) (Release_Version latestRelease) with
  | None => panic
  | Some remoteVersion =>
  match NewVersion (version_lib env) (config_Version env) with
  | None => panic
  | Some localVersion =>
      if GreaterThan (version_lib env) remoteVersion localVersion
      then perform (EvPrintln updateAdvisory) (λ _, tt)
      else ret tt
  end end end.

End Manager.

(** ** Listings *)

(** Modelled from the spec: [utils.Values] is a helper of this repository
    whose source is not at hand.  The spec's design notes describe
    listings as built on "non-deterministic map iteration": the values of
    the map, in the order in which the runtime happens to iterate over
    the keys during the call.  That order is the parameter [order]. *)
Definition utils_Values {V} (order : list string) (m : gmap string V) : list V :=
  omap (λ k, m !! k) order.

(** Modelled from the spec: [utils.Map], also not at hand, applies a
    function to every element of a slice. *)
Definition utils_Map {T U} (l : list T) (f : T → U) : list U := f <$> l.

(** Modelled from the spec: the comparator of [utils.SortVersions], which
    the spec describes as "a version-ordering comparator (not
    lexicographic - numeric component-wise comparison)", ascending.  A
    version's components are the numbers between its dots, after an
    optional leading "v"; versions compare as their component lists do,
    first difference first. *)

Definition digit_value (a : Ascii.ascii) : option N :=
  let n := Ascii.N_of_ascii a in
  if ((48 <=? n) && (n <=? 57))%N then Some (n - 48)%N else None.

(** The numbers between the dots; each is spelled by the digits that
    start its component ("10" in "10-rc1"), 0 when there are none. *)
Fixpoint scan_components (acc : N) (reading : bool) (s : string) : list N :=
  match s with
  | EmptyString => [acc]
  | String a s' =>
      if Ascii.eqb a "."%char then acc :: scan_components 0 true s'
      else
        match digit_value a with
        | Some d =>
            if reading then scan_components (10 * acc + d) true s'
            else scan_components acc false s'
        | None => scan_components acc false s'
        end
  end.

Definition version_components (version : string) : list N :=
  match version with
  | String a rest =>
      if Ascii.eqb a "v"%char then scan_components 0 true rest
      else scan_components 0 true version
  | EmptyString => scan_components 0 true version
  end.

Fixpoint components_leb (a b : list N) : bool :=
  match a, b with
  | [], _ => true
  | _ :: _, [] => false
  | x :: a', y :: b' => (x <? y)%N || ((x =? y)%N && components_leb a' b')
  end.

Definition components_le (a b : list N) : Prop := components_leb a b.

Definition version_le (v w : string) : Prop :=
  components_le (version_components v) (version_components w).

#[global] Instance components_le_dec : RelDecision components_le.
Proof. intros a b. unfold components_le. apply _. Defined.

#[global] Instance version_le_dec : RelDecision version_le.
Proof. intros v w. unfold version_le. apply _. Defined.

(** Modelled from the spec: [utils.SortVersions] sorts a slice by the
    version each element carries, ascending in [version_le]. *)
Definition utils_SortVersions {T} (versions : list T) (getVersion : T → string)
  : list T :=
  merge_sort (λ x y, version_le (getVersion x) (getVersion y)) versions.

Inductive ShellCompDirective : Type :=
| ShellCompDirectiveNoFileComp
| ShellCompDirectiveKeepOrder.

(** [order] is the order in which the Go runtime iterates over the keys of
    the map during this call. *)
Definition ListInstalledVersions (order : list string) (c : LocalConfig)
  : list LocalInstallationInfo :=
  utils_Values order (LocalInstallations c).

Definition LocalVersionList (order : list string) (c : LocalConfig)
  : list string * ShellCompDirective :=
  let installedVersions := ListInstalledVersions order c in
  let versionList := utils_Map installedVersions Version in
  (utils_SortVersions versionList (λ version, version),
   ShellCompDirectiveKeepOrder).

(** An iteration order of a map visits every key exactly once. *)
Definition iteration_order {V} (order : list string) (m : gmap string V) : Prop :=
  order ≡ₚ (map_to_list m).*1.

Definition mkInfo (version location date : string) : LocalInstallationInfo :=
  {| Version := version; Location := location; InstallationDate := date |}.

(** ** Sequences of operations *)

Inductive operation : Type :=
| OpInstall (version : string)
| OpUninstall (version : string)
| OpSetDefault (version : option string)
| OpRun (version : string) (args : list string).

Definition perform_operation (env : Env) (op : operation) : M (option Error) :=
  match op with
  | OpInstall version => InstallVersion env version
  | OpUninstall version => UninstallVersion env version
  | OpSetDefault version => SetDefaultVersion env version
  | OpRun version args => Run env version args
  end.

(** The operations of a session in turn, each on the state the one before
    left behind, with what each returned.  A panic or a replaced process
    image ends the session. *)
Fixpoint session (env : Env) (ops : list operation) (st : state)
  : list (operation * outcome (option Error) * state) :=
  match ops with
  | [] => []
  | op :: ops' =>
      match perform_operation env op st with
      | (Returns r, st') => (op, Returns r, st') :: session env ops' st'
      | (o, st') => [(op, o, st')]
      end
  end.

(** ** Predicates on inventories and histories *)

(** No dangling default: the default, if set, names a key of the map. *)
Definition default_installed (c : LocalConfig) : Prop :=
  ∀ d, DefaultVersion c = Some d → is_Some (LocalInstallations c !! d).

(** Every entry is stored under its own version, as InstallVersion
    stores it. *)
Definition keys_are_versions (c : LocalConfig) : Prop :=
  ∀ k li, LocalInstallations c !! k = Some li → Version li = k.

(** The key under which a version string resolves. *)
Definition resolved_key (c : LocalConfig) (version : string) : option string :=
  match LocalInstallations c !! version with
  | Some _ => Some version
  | None =>
      match LocalInstallations c !! ("v" +:+ version) with
      | Some _ => Some ("v" +:+ version)
      | None => None
      end
  end.

Definition is_GetRelease (e : event) : bool :=
  match e with EvGetRelease _ => true | _ => false end.

(** How many installations a history starts: each InstallVersion asks
    the client for the release exactly once, and nothing else does. *)
Definition installs_started (h : history) : nat :=
  length (filter (λ e, is_GetRelease e = true) h).

(** Events that hand control to the launched binary. *)
Definition is_launch (e : event) : bool :=
  match e with EvStartProcess _ _ | EvExec _ _ => true | _ => false end.

(** The freshness rule, in words: the entry is the rolling build and was
    installed more than 24 hours before [now].  An installation date that
    does not parse counts as the zero time. *)
Definition installedAt (env : Env) (li : LocalInstallationInfo) : Time :=
  default zeroTime (time_Parse_RFC3339 env (InstallationDate li)).

Definition stale_rolling (env : Env) (li : LocalInstallationInfo) (now : Time)
  : Prop :=
  Version li = "nightly" ∧ (24 * Hour < now - installedAt env li)%Z.

#[global] Instance stale_rolling_dec env li now : Decision (stale_rolling env li now).
Proof. unfold stale_rolling. apply _. Defined.

Definition with_past (st : state) (h : history) : state :=
  {| localConfig := localConfig st; past := h |}.

(** The entry InstallVersion records for a release, and the inventory
    after recording it. *)
Definition installed_entry (env : Env) (release : Release) (date : string)
  : LocalInstallationInfo :=
  {| Version := Release_Version release;
     Location := config_VersionDir env +:+ "/" +:+ config_DuckDBName env
                   +:+ "-" +:+ Release_Version release;
     InstallationDate := date |}.

Definition record_installation (env : Env) (c : LocalConfig)
    (release : Release) (date : string) : LocalConfig :=
  {| DefaultVersion := DefaultVersion c;
     LocalInstallations :=
       <[Release_Version release := installed_entry env release date]>
         (LocalInstallations c) |}.

(** The inventories the manager itself builds: entries under their own
    version, and no dangling default. *)
Definition well_formed (c : LocalConfig) : Prop :=
  keys_are_versions c ∧ default_installed c.

Definition well_formed_state (st : state) : Prop :=
  well_formed (localConfig st).

(** Weakest preconditions: [wp m Q E st] says that running [m] from [st]
    ends in a state satisfying [Q] if it returns, and [E] if it panics or
    the process image is replaced. *)
Definition wp {A} (m : M A) (Q : A → state → Prop) (E : state → Prop)
    (st : state) : Prop :=
  match m st with
  | (Returns a, st') => Q a st'
  | (Panics, st') | (Replaced, st') => E st'
  end.

(** The inventory with its default cleared, and with an entry removed. *)
Definition cleared (c : LocalConfig) : LocalConfig :=
  {| DefaultVersion := None; LocalInstallations := LocalInstallations c |}.

Definition without (k : string) (c : LocalConfig) : LocalConfig :=
  {| DefaultVersion := DefaultVersion c;
     LocalInstallations := delete k (LocalInstallations c) |}.

(** ** A concrete environment

    A small world in which nothing fails: the client knows every version
    and publishes it under the tag [tag version]; the file system holds
    what the history created and did not remove; the clock is [clock];
    instants are written as decimal numbers of nanoseconds. *)

Fixpoint file_exists (h : history) (name : string) (before : bool) : bool :=
  match h with
  | [] => before
  | EvWriteFile n _ :: h' | EvSymlink _ n :: h' | EvCopyFile _ n :: h' =>
      file_exists h' name (if String.eqb n name then true else before)
  | EvRemove n :: h' =>
      file_exists h' name (if String.eqb n name then false else before)
  | _ :: h' => file_exists h' name before
  end.

Definition stat_of (h : history) (name : string) : option OsError :=
  if file_exists h name false then None else Some ErrNotExist.

Fixpoint all_digits_or_dots (s : string) : bool :=
  match s with
  | EmptyString => true
  | String a s' =>
      (Ascii.eqb a "."%char || bool_decide (is_Some (digit_value a)))
      && all_digits_or_dots s'
  end.

(** A strict parser: digits and dots, after an optional "v". *)
Definition strict_NewVersion (s : string) : option (list N) :=
  let body := match s with
              | String a rest => if Ascii.eqb a "v"%char then rest else s
              | EmptyString => s
              end in
  match body with
  | EmptyString => None
  | _ => if all_digits_or_dots body then Some (version_components s) else None
  end.

Definition numeric_versions : VersionLib :=
  {| VersionT := list N;
     NewVersion := strict_NewVersion;
     GreaterThan := λ a b, negb (components_leb a b) |}.

Definition parse_instant (s : string) : option Time :=
  match s with
  | EmptyString => None
  | _ => if all_digits_or_dots s
         then Z.of_N <$> head (scan_components 0 true s) else None
  end.

Definition calm_env (platform : Platform) (tag : string → string)
    (clock : history → Time) (latest : Error + Release) : Env :=
  {| config_VersionDir := "/home/u/.duckman/versions";
     config_DuckDBName := "duckdb";
     config_File := "/home/u/.duckman/config.json";
     config_DefaultDuckdbFile := "/home/u/.duckman/bin/duckdb";
     config_Version := "0.3.0";
     client_GetRelease := λ _ version,
       inr {| Release_Version := tag version; Release_Assets := [] |};
     client_LatestDuckVmRelease := λ _ _, latest;
     utils_GetDownloadUrlFrom := λ r,
       inr ("https://releases.example/" +:+ Release_Version r);
     utils_GetResponseBodyFrom := λ _ _, inr [];
     utils_ExtractDuckdbFile := λ b, inr b;
     utils_CopyFile := λ _ _ _, None;
     utils_GetDeviceInfo_Platform := platform;
     os_WriteFile := λ _ _ _, None;
     os_Remove := λ h name, stat_of h name;
     os_Lstat := λ h name, stat_of h name;
     os_Symlink := λ _ _ _, None;
     os_StartProcess := λ _ _ _, None;
     process_Wait := λ _, None;
     syscall_Exec := λ _ _ _, None;
     time_Now := clock;
     time_MarshalText := λ t, pretty t;
     time_Parse_RFC3339 := parse_instant;
     json_MarshalIndent := λ _, inr [];
     version_lib := numeric_versions |}.

(** The clock shows [now]; the client publishes releases under the name
    asked for. *)
Definition env_at (now : Time) : Env :=
  calm_env PlatformUnix (λ version, version) (λ _, now)
           (inr {| Release_Version := "0.4.0"; Release_Assets := [] |}).

Definition cfg_nightly (date : string) : LocalConfig :=
  {| DefaultVersion := None;
     LocalInstallations :=
       <["nightly" := {| Version := "nightly";
                         Location := "/d/duckdb-nightly";
                         InstallationDate := date |}]> ∅ |}.

Definition env0 : Env :=
  calm_env PlatformUnix (λ version, version) (λ _, 1000%Z)
           (inr {| Release_Version := "0.4.0"; Release_Assets := [] |}).

(** The client publishes releases under "v"-prefixed tags. *)
Definition env_v : Env :=
  calm_env PlatformWindows (λ version, "v" +:+ version) (λ _, 1000%Z)
           (inr {| Release_Version := "0.2.0"; Release_Assets := [] |}).

Definition empty_config : LocalConfig :=
  {| DefaultVersion := None; LocalInstallations := ∅ |}.

Definition fresh (c : LocalConfig) : state := {| localConfig := c; past := [] |}.

Definition cfg_two : LocalConfig :=
  {| DefaultVersion := None;
     LocalInstallations :=
       <["v0.9.2" := mkInfo "v0.9.2" "/d/duckdb-v0.9.2" "100"]>
       (<["v0.10.0" := mkInfo "v0.10.0" "/d/duckdb-v0.10.0" "200"]> ∅) |}.

Definition cfg_default_092 : LocalConfig :=
  {| DefaultVersion := Some "v0.9.2";
     LocalInstallations := LocalInstallations cfg_two |}.

(** The client reports a latest release whose tag is no version number. *)
Definition env_named_release : Env :=
  calm_env PlatformUnix (λ version, version) (λ _, 1000%Z)
           (inr {| Release_Version := "latest"; Release_Assets := [] |}).

(** An inventory as a hand-edited file could hold it: the entry under "a"
    says it is version "b". *)
Definition cfg_mislabelled (d : option string) : LocalConfig :=
  {| DefaultVersion := d;
     LocalInstallations := <["a" := mkInfo "b" "/d/duckdb-b" "100"]> ∅ |}.

(** ** Remote listing and the install command *)

(** A release as the catalogue lists it; the manager reads its version. *)
Record RemoteVersionInfo : Type := {
  RemoteVersionInfo_Version : string;
}.

Definition toVersionList (versions : list RemoteVersionInfo) : list string :=
  let versionList := utils_Map versions RemoteVersionInfo_Version in
  utils_SortVersions versionList (λ version, version).

(** RemoteVersionList makes one call, [client.ListAllReleases], and
    touches nothing else; [answer] is what that call returned.  A nil
    slice is the empty list. *)
Definition RemoteVersionList (answer : Error + list RemoteVersionInfo)
  : list string * ShellCompDirective :=
  match answer with
  | inl _ => ([], ShellCompDirectiveNoFileComp)
  | inr remoteVersions => (toVersionList remoteVersions, ShellCompDirectiveKeepOrder)
  end.

(** The body of the install command (cmd/install.go).
    Modelled from the spec: [utils.ExitWithError] is not at hand; "any
    unrecovered error terminates the invocation with a non-zero exit
    status and a human-readable message".  The command's result is then
    that error, and nothing after it runs. *)
Definition installCmd_Run (env : Env) (args : list string) : M (option Error) :=
  match args with
  | [] => panic
  | version :: _ =>
      err ← InstallVersion env version;
      match err with
      | Some e => ret (Some e)
      | None => ShowUpdateWarning env;; ret None
      end
  end.

(** ** More predicates on histories *)


(** The call that hands control to the binary [name], per platform. *)
Definition launch_event (platform : Platform) (name : string)
    (argv : list string) : event :=
  match platform with
  | PlatformWindows => EvStartProcess name argv
  | PlatformUnix => EvExec name argv
  end.


(** The history ends with a write of the inventory [c] to the config
    file. *)
Definition persisted (env : Env) (c : LocalConfig) (h : history) : Prop :=
  ∃ h0 b, json_MarshalIndent env c = inr b
          ∧ h = h0 ++ [EvWriteFile (config_File env) b].



(** Install, then launch: what Run does after reading the clock when the
    entry is a stale rolling build. *)
Definition reinstall_then_launch (env : Env) (version : string)
    (release : LocalInstallationInfo) (args : list string) : M (option Error) :=
  err ← InstallVersion env version;
  match err with
  | Some e => ret (Some e)
  | None => exec env (Location release :: args)
  end.


(** ** More concrete environments *)

(** A world in which chosen calls fail: the client answers [get], removing
    the file [name] answers [remove name], writing it answers
    [write name]; the rest is as in [calm_env]. *)
Definition rough_env (platform : Platform) (get : string → Error + Release)
    (remove write : string → option OsError) : Env :=
  {| config_VersionDir := "/home/u/.duckman/versions";
     config_DuckDBName := "duckdb";
     config_File := "/home/u/.duckman/config.json";
     config_DefaultDuckdbFile := "/home/u/.duckman/bin/duckdb";
     config_Version := "0.3.0";
     client_GetRelease := λ _ version, get version;
     client_LatestDuckVmRelease := λ _ _, inl (Remote "timeout");
     utils_GetDownloadUrlFrom := λ r,
       inr ("https://releases.example/" +:+ Release_Version r);
     utils_GetResponseBodyFrom := λ _ _, inr [];
     utils_ExtractDuckdbFile := λ b, inr b;
     utils_CopyFile := λ _ _ _, None;
     utils_GetDeviceInfo_Platform := platform;
     os_WriteFile := λ _ name _, write name;
     os_Remove := λ _ name, remove name;
     os_Lstat := λ h name, stat_of h name;
     os_Symlink := λ _ _ _, None;
     os_StartProcess := λ _ _ _, None;
     process_Wait := λ _, None;
     syscall_Exec := λ _ _ _, None;
     time_Now := λ _, 1000%Z;
     time_MarshalText := λ t, pretty t;
     time_Parse_RFC3339 := parse_instant;
     json_MarshalIndent := λ _, inr [];
     version_lib := numeric_versions |}.

(** The client knows every version under the name asked for. *)
Definition same_name (version : string) : Error + Release :=
  inr {| Release_Version := version; Release_Assets := [] |}.

(** The client resolves every name to the release "v1.0.0". *)
Definition always_v100 (version : string) : Error + Release :=
  inr {| Release_Version := "v1.0.0"; Release_Assets := [] |}.

(** The config file cannot be written. *)
Definition read_only_config (name : string) : option OsError :=
  if String.eqb name "/home/u/.duckman/config.json"
  then Some (ErrOther "permission denied") else None.

(** Installed binaries cannot be removed. *)
Definition busy_binaries (name : string) : option OsError :=
  Some (ErrOther "text file busy").

Definition nothing_fails (name : string) : option OsError := None.

(** * Properties *)

Ltac unfold_M :=
  unfold mbind, M_bind, bind, mret, M_ret, ret, get_config, put_config,
    perform, panic, replaced in *.

(** ** Resolution *)

Lemma VersionIsInstalled_run (version : string) (st : state) :
  VersionIsInstalled version st
  = (Returns (VersionIsInstalled_in (localConfig st) version), st).
Proof. reflexivity. Qed.

Lemma GetLocalReleaseInfo_run (version : string) (st : state) :
  GetLocalReleaseInfo version st
  = (Returns (GetLocalReleaseInfo_in (localConfig st) version), st).
Proof. reflexivity. Qed.


Lemma VersionIsInstalled_in_true (c : LocalConfig) (s : string) :
  VersionIsInstalled_in c s = true
  ↔ is_Some (LocalInstallations c !! s)
    ∨ is_Some (LocalInstallations c !! ("v" +:+ s)).
Proof.
  unfold VersionIsInstalled_in.
  destruct (LocalInstallations c !! s) as [li|] eqn:Hs.
  - split; [intros _; left; eauto | done].
  - destruct (LocalInstallations c !! ("v" +:+ s)) as [li|] eqn:Hv.
    + split; [intros _; right; eauto | done].
    + split; [done | intros [[? ?]|[? ?]]; done].
Qed.

Lemma VersionIsInstalled_in_resolved (c : LocalConfig) (s : string) :
  VersionIsInstalled_in c s = true ↔ is_Some (resolved_key c s).
Proof.
  unfold VersionIsInstalled_in, resolved_key.
  destruct (LocalInstallations c !! s);
    [|destruct (LocalInstallations c !! ("v" +:+ s))];
    split; intros H; try done; eauto; by destruct H.
Qed.

Lemma GetLocalReleaseInfo_in_resolved (c : LocalConfig) (s : string) :
  match resolved_key c s with
  | Some k => ∃ li, LocalInstallations c !! k = Some li
                    ∧ GetLocalReleaseInfo_in c s = inr li
  | None => GetLocalReleaseInfo_in c s
            = inl (NewF "Version '%s' not found in local versions" s)
  end.
Proof.
  unfold GetLocalReleaseInfo_in, resolved_key.
  destruct (LocalInstallations c !! s) eqn:Hs; eauto.
  destruct (LocalInstallations c !! ("v" +:+ s)) eqn:Hv; eauto.
Qed.

(** ** Histories *)

Lemma installs_started_app (h1 h2 : history) :
  installs_started (h1 ++ h2) = installs_started h1 + installs_started h2.
Proof. unfold installs_started. by rewrite filter_app, length_app. Qed.

Lemma installs_started_cons (e : event) (h : history) :
  installs_started (e :: h)
  = (if is_GetRelease e then 1 else 0) + installs_started h.
Proof.
  unfold installs_started. by destruct e.
Qed.

(** ** Persisting and installing *)

Section Facts.
Context (env : Env).

Lemma saveConfig_run (st : state) :
  saveConfig env st =
  match json_MarshalIndent env (localConfig st) with
  | inl err => (Returns (Some (Wrap err)), st)
  | inr configAsBytes =>
      (Returns (Wrap_opt (os_WriteFile env (past st) (config_File env)
                                       configAsBytes)),
       with_past st (past st ++ [EvWriteFile (config_File env) configAsBytes]))
  end.
Proof.
  unfold saveConfig. unfold_M.
  destruct (json_MarshalIndent env (localConfig st)); [done|]. simpl.
  by destruct (os_WriteFile env (past st) (config_File env) b).
Qed.

(** Saving returns, leaves the inventory alone and starts no install. *)
Lemma saveConfig_effect (st : state) :
  ∃ r h, saveConfig env st = (Returns r, with_past st (past st ++ h))
         ∧ installs_started h = 0.
Proof.
  rewrite saveConfig_run.
  destruct (json_MarshalIndent env (localConfig st)).
  - exists (Some (Wrap o)), []. rewrite app_nil_r. by destruct st.
  - eexists _, [_]. done.
Qed.

(** InstallVersion always returns.  It asks the client exactly once, as
    its first step.  Either it fails early and the inventory is as
    before, or it has recorded the release the client named, under the
    release's version, and tried to save. *)
Lemma InstallVersion_effect (version : string) (st : state) :
  ∃ r h c',
    InstallVersion env version st
    = (Returns r,
       {| localConfig := c'; past := past st ++ EvGetRelease version :: h |})
    ∧ installs_started h = 0
    ∧ ((c' = localConfig st ∧ r ≠ None)
       ∨ ∃ release date,
           client_GetRelease env (past st) version = inr release
           ∧ c' = record_installation env (localConfig st) release date).
Proof.
  unfold InstallVersion. unfold_M. simpl.
  destruct (client_GetRelease env (past st) version) as [e|release] eqn:Hrel.
  { exists (Some e), [], (localConfig st). eauto. }
  destruct (utils_GetDownloadUrlFrom env release) as [e|url].
  { exists (Some e), [], (localConfig st). eauto. }
  simpl.
  destruct (utils_GetResponseBodyFrom env _ url) as [e|asset].
  { exists (Some e), [EvGetResponseBodyFrom url], (localConfig st).
    rewrite <-app_assoc. eauto. }
  destruct (utils_ExtractDuckdbFile env asset) as [e|duckDb].
  { exists (Some e), [EvGetResponseBodyFrom url], (localConfig st).
    rewrite <-app_assoc. eauto. }
  simpl.
  destruct (os_WriteFile env _ _ duckDb) as [e|].
  { eexists (Some (Wrap e)), [_; _], (localConfig st).
    rewrite <-!app_assoc. eauto. }
  simpl.
  match goal with |- context [saveConfig env ?s] =>
    destruct (saveConfig_effect s) as (r & h & -> & Hh) end.
  simpl. eexists r, ([_; _; _] ++ h), _. split_and!.
  - unfold with_past. simpl. by rewrite <-!app_assoc.
  - by rewrite installs_started_app, Hh.
  - right. eexists release, _. split; [done|]. reflexivity.
Qed.

End Facts.

(** ** The claims on resolution *)

(** C1. Prefix-tolerant resolution: VersionIsInstalled(s) is true exactly
    when the map has the key s or the key "v"+s; GetLocalReleaseInfo(s)
    returns the entry under s if there is one, otherwise the entry under
    "v"+s, otherwise the not-found error; and after a successful
    InstallVersion(v) for which the client named the release "v"+v, both
    VersionIsInstalled(v) and VersionIsInstalled("v"+v) return true. *)
Theorem prefix_tolerant_resolution (env : Env) :
  (∀ st s,
     VersionIsInstalled s st = (Returns true, st)
     ↔ is_Some (LocalInstallations (localConfig st) !! s)
       ∨ is_Some (LocalInstallations (localConfig st) !! ("v" +:+ s)))
  ∧ (∀ st s,
       GetLocalReleaseInfo s st =
       (Returns
          match LocalInstallations (localConfig st) !! s,
                LocalInstallations (localConfig st) !! ("v" +:+ s) with
          | Some li, _ => inr li
          | None, Some li => inr li
          | None, None =>
              inl (NewF "Version '%s' not found in local versions" s)
          end, st))
  ∧ (∀ st st' v release,
       client_GetRelease env (past st) v = inr release →
       Release_Version release = "v" +:+ v →
       InstallVersion env v st = (Returns None, st') →
       is_Some (LocalInstallations (localConfig st') !! ("v" +:+ v))
       ∧ VersionIsInstalled v st' = (Returns true, st')
       ∧ VersionIsInstalled ("v" +:+ v) st' = (Returns true, st')).
Proof.
  split_and!.
  - intros st s. rewrite VersionIsInstalled_run, <-VersionIsInstalled_in_true.
    split; [by intros [= ->] | by intros ->].
  - intros st s. rewrite GetLocalReleaseInfo_run.
    unfold GetLocalReleaseInfo_in.
    by destruct (LocalInstallations (localConfig st) !! s).
  - intros st st' v release Hrel Htag Hrun.
    destruct (InstallVersion_effect env v st) as (r & h & c' & Heq & _ & Hc).
    rewrite Heq in Hrun. injection Hrun as -> <-. simpl.
    destruct Hc as [[_ ?]|(release' & date & Hrel' & ->)]; [done|].
    rewrite Hrel in Hrel'. injection Hrel' as <-.
    assert (is_Some (LocalInstallations
                       (record_installation env (localConfig st) release date)
                     !! ("v" +:+ v))) as Hkey.
    { simpl. rewrite Htag, lookup_insert_eq. eauto. }
    split; [done|].
    rewrite !VersionIsInstalled_run. simpl.
    split; f_equal; f_equal; apply VersionIsInstalled_in_true; auto.
Qed.

Lemma prefix_tolerant_resolution_witness :
  ∃ st',
    InstallVersion env_v "0.9.2" (fresh empty_config) = (Returns None, st')
    ∧ is_Some (LocalInstallations (localConfig st') !! "v0.9.2")
    ∧ VersionIsInstalled "0.9.2" st' = (Returns true, st')
    ∧ VersionIsInstalled "v0.9.2" st' = (Returns true, st').
Proof.
  eexists. split; [vm_compute; reflexivity|].
  destruct (prefix_tolerant_resolution env_v) as (_ & _ & H).
  eapply (H (fresh empty_config) _ "0.9.2"); reflexivity.
Defined.

(** C9. The two resolution entry points agree: VersionIsInstalled(s)
    returns true exactly when GetLocalReleaseInfo(s) returns an entry
    rather than an error, and both leave the manager's state as it was. *)
Theorem resolution_entry_points_agree (st : state) (s : string) :
  ∃ b r,
    VersionIsInstalled s st = (Returns b, st)
    ∧ GetLocalReleaseInfo s st = (Returns r, st)
    ∧ (b = true ↔ ∃ li, r = inr li).
Proof.
  exists (VersionIsInstalled_in (localConfig st) s),
         (GetLocalReleaseInfo_in (localConfig st) s).
  split_and!; [done..|].
  unfold VersionIsInstalled_in, GetLocalReleaseInfo_in.
  destruct (LocalInstallations (localConfig st) !! s);
    [|destruct (LocalInstallations (localConfig st) !! ("v" +:+ s))];
    split; first [by eauto | done | by intros [? ?]].
Qed.

(** C10. GetDefaultVersion returns nil exactly when DefaultVersion is
    unset; when it is set the result is a record: the entry under that
    key, or the zero value (empty version, empty location) when the key
    is absent from the map - never nil, never an error. *)
Theorem GetDefaultVersion_presence_unchecked (st : state) :
  ∃ r,
    GetDefaultVersion st = (Returns r, st)
    ∧ (r = None ↔ DefaultVersion (localConfig st) = None)
    ∧ (∀ d, DefaultVersion (localConfig st) = Some d →
         match LocalInstallations (localConfig st) !! d with
         | Some li => r = Some li
         | None =>
             r = Some {| Version := ""; Location := ""; InstallationDate := "" |}
         end).
Proof.
  exists (GetDefaultVersion_in (localConfig st)).
  split; [done|]. unfold GetDefaultVersion_in.
  destruct (DefaultVersion (localConfig st)) as [d|]; split; try done.
  intros d' [= <-].
  by destruct (LocalInstallations (localConfig st) !! d).
Qed.

Lemma GetDefaultVersion_presence_unchecked_witness :
  GetDefaultVersion (fresh (cfg_mislabelled (Some "b")))
  = (Returns (Some {| Version := ""; Location := ""; InstallationDate := "" |}),
     fresh (cfg_mislabelled (Some "b"))).
Proof.
  destruct (GetDefaultVersion_presence_unchecked
              (fresh (cfg_mislabelled (Some "b")))) as (r & -> & _ & H).
  specialize (H "b" eq_refl). vm_compute in H. by rewrite H.
Defined.

(** ** Uninstall *)

(** C4. When the version resolves to no key of the map, UninstallVersion
    fails with the not-installed error and leaves the manager as it was:
    same map, same default, and nothing written (the history is the
    same). *)
Theorem uninstall_absent_version (env : Env) (st : state) (v : string) :
  resolved_key (localConfig st) v = None →
  UninstallVersion env v st
  = (Returns (Some (NewF "Version '%s' not installed" v)), st).
Proof.
  intros Hkey. unfold UninstallVersion.
  assert (VersionIsInstalled_in (localConfig st) v = false) as Hno.
  { apply not_true_is_false. rewrite VersionIsInstalled_in_resolved, Hkey.
    by intros [? ?]. }
  unfold_M. simpl. by rewrite Hno.
Qed.

Lemma uninstall_absent_version_witness :
  UninstallVersion env0 "1.0.0" (fresh cfg_two)
  = (Returns (Some (NewF "Version '%s' not installed" "1.0.0")), fresh cfg_two).
Proof. apply (uninstall_absent_version env0 (fresh cfg_two) "1.0.0"). reflexivity. Defined.

Section Default.
Context (env : Env).

(** SetDefaultVersion(nil) always returns and never touches the map.
    When it returns no error it has cleared the default and its last
    step was to write the cleared inventory to the config file. *)
Lemma SetDefaultVersion_None_effect (st : state) :
  ∃ r h c',
    SetDefaultVersion env None st
    = (Returns r, {| localConfig := c'; past := past st ++ h |})
    ∧ installs_started h = 0
    ∧ (c' = localConfig st ∨ c' = cleared (localConfig st))
    ∧ (r = None →
       c' = cleared (localConfig st)
       ∧ ∃ h0 b, json_MarshalIndent env c' = inr b
                 ∧ h = h0 ++ [EvWriteFile (config_File env) b]).
Proof.
  unfold SetDefaultVersion. unfold_M. simpl.
  destruct (os_Lstat env (past st) _) as [e|]; simpl.
  - rewrite saveConfig_run. simpl.
    destruct (json_MarshalIndent env _) as [e'|b] eqn:Hb.
    + eexists _, [_], _. split; [done|]. split_and!; [done|by right|done].
    + eexists _, [_; _], _. unfold with_past; simpl.
      rewrite <-app_assoc. split; [done|]. split_and!; [done|by right|].
      intros _. split; [done|]. by exists [EvLstat (config_DefaultDuckdbFile env)], b.
  - destruct (os_Remove env _ _) as [e|]; simpl.
    + eexists _, [_; _], _. rewrite <-app_assoc.
      split; [done|]. split_and!; [done|by left|done].
    + rewrite saveConfig_run. simpl.
      destruct (json_MarshalIndent env _) as [e'|b] eqn:Hb.
      * eexists _, [_; _], _. rewrite <-app_assoc.
        split; [done|]. split_and!; [done|by right|done].
      * eexists _, [_; _; _], _. unfold with_past; simpl.
        rewrite <-!app_assoc. split; [done|]. split_and!; [done|by right|].
        intros _. split; [done|]. by eexists [_; _], b.
Qed.

(** C3, as the code has it.  In an inventory whose default is the
    resolved key of the version, and whose resolved entry is stored
    under its own version (as InstallVersion stores entries), a
    successful UninstallVersion first runs SetDefaultVersion(nil), which
    clears the default and saves; only then removes the binary file,
    deletes the map entry and saves again; afterwards GetDefaultVersion
    returns nil. *)
Theorem uninstall_default_clears_it
    (st st' : state) (v k : string) (li : LocalInstallationInfo) :
  resolved_key (localConfig st) v = Some k →
  LocalInstallations (localConfig st) !! k = Some li →
  Version li = k →
  DefaultVersion (localConfig st) = Some k →
  UninstallVersion env v st = (Returns None, st') →
  ∃ st1 b,
    SetDefaultVersion env None st = (Returns None, st1)
    ∧ localConfig st1 = cleared (localConfig st)
    ∧ localConfig st' = without k (cleared (localConfig st))
    ∧ json_MarshalIndent env (localConfig st') = inr b
    ∧ past st' = past st1 ++ [EvRemove (Location li);
                               EvWriteFile (config_File env) b]
    ∧ GetDefaultVersion st' = (Returns None, st').
Proof.
  intros Hkey Hli Hver Hdef Hrun.
  pose proof (GetLocalReleaseInfo_in_resolved (localConfig st) v) as Hres.
  rewrite Hkey in Hres. destruct Hres as (li' & Hli' & Hget).
  rewrite Hli in Hli'. injection Hli' as <-.
  assert (VersionIsInstalled_in (localConfig st) v = true) as Hin.
  { apply VersionIsInstalled_in_resolved. rewrite Hkey. eauto. }
  unfold UninstallVersion in Hrun. unfold_M. simpl in Hrun.
  rewrite Hin in Hrun. simpl in Hrun. unfold GetLocalReleaseInfo in Hrun.
  unfold_M. simpl in Hrun. rewrite Hget in Hrun. simpl in Hrun.
  rewrite Hdef, Hver, bool_decide_eq_true_2 in Hrun by done.
  destruct (SetDefaultVersion_None_effect st)
    as (r & h & c' & Heq & _ & _ & Hr).
  rewrite Heq in Hrun. destruct r as [e|]; [done|].
  destruct (Hr eq_refl) as (-> & _). clear Hr.
  simpl in Hrun. rewrite Hli in Hrun. simpl in Hrun.
  eexists _. 
  assert (∀ s, saveConfig env s = (Returns None, st') →
          ∃ b, json_MarshalIndent env (localConfig s) = inr b
               ∧ st' = with_past s (past s ++ [EvWriteFile (config_File env) b]))
    as Hsave.
  { intros s. rewrite saveConfig_run.
    destruct (json_MarshalIndent env (localConfig s)) as [e|b]; [done|].
    intros [= _ <-]. eauto. }
  destruct (os_Remove env _ (Location li)) as [e|].
  - destruct (os_IsNotExist e); simpl in Hrun; [|done].
    apply Hsave in Hrun as (b & Hb & ->). exists b. simpl in *.
    split_and!; try done. by rewrite <-app_assoc.
  - apply Hsave in Hrun as (b & Hb & ->). exists b. simpl in *.
    split_and!; try done. by rewrite <-app_assoc.
Qed.

Lemma saveConfig_ok (s st' : state) :
  saveConfig env s = (Returns None, st') →
  ∃ b, json_MarshalIndent env (localConfig s) = inr b
       ∧ st' = with_past s (past s ++ [EvWriteFile (config_File env) b]).
Proof.
  rewrite saveConfig_run.
  destruct (json_MarshalIndent env (localConfig s)) as [e|b]; [done|].
  intros [= _ <-]. eauto.
Qed.


End Default.



Lemma uninstall_default_clears_it_witness :
  ∃ st',
    UninstallVersion env0 "0.9.2" (fresh cfg_default_092) = (Returns None, st')
    ∧ GetDefaultVersion st' = (Returns None, st').
Proof.
  eexists. split; [vm_compute; reflexivity|].
  destruct (uninstall_default_clears_it env0 (fresh cfg_default_092) _
              "0.9.2" "v0.9.2" (mkInfo "v0.9.2" "/d/duckdb-v0.9.2" "100")
              eq_refl eq_refl eq_refl eq_refl eq_refl)
    as (st1 & b & _ & _ & _ & _ & _ & H).
  exact H.
Defined.

(** C3 as stated fails when the resolved entry is not stored under its
    own version: the entry under "a" says it is version "b", the default
    is "a", and UninstallVersion("a") succeeds without clearing the
    default or removing the entry. *)
Lemma uninstall_default_mislabelled :
  let st := fresh (cfg_mislabelled (Some "a")) in
  resolved_key (localConfig st) "a" = Some "a"
  ∧ DefaultVersion (localConfig st) = Some "a"
  ∧ ∃ st' li,
      UninstallVersion env0 "a" st = (Returns None, st')
      ∧ DefaultVersion (localConfig st') = Some "a"
      ∧ GetDefaultVersion st' = (Returns (Some li), st')
      ∧ GetDefaultVersion st' ≠ (Returns None, st').
Proof.
  simpl. split; [reflexivity|]. split; [reflexivity|].
  eexists _, _. split; [vm_compute; reflexivity|].
  split; [reflexivity|]. split; [vm_compute; reflexivity|].
  vm_compute. discriminate.
Qed.



(** ** Reasoning by weakest preconditions *)

Section WP.
Context {A B : Type}.
Implicit Types (Q : A → state → Prop) (E : state → Prop) (st : state).

Lemma wp_bind (m : M A) (k : A → M B) (R : B → state → Prop) E st :
  wp m (λ a, wp (k a) R E) E st → wp (m ≫= k) R E st.
Proof.
  unfold wp. unfold_M. by destruct (m st) as [[a| |] st'].
Qed.

Lemma wp_ret (a : A) Q E st : Q a st → wp (ret a) Q E st.
Proof. done. Qed.

Lemma wp_panic Q E st : E st → wp panic Q E st.
Proof. done. Qed.

Lemma wp_perform (e : event) (answer : history → A) Q E st :
  Q (answer (past st)) (with_past st (past st ++ [e])) →
  wp (perform e answer) Q E st.
Proof. done. Qed.

Lemma wp_mono (m : M A) Q Q' E E' st :
  wp m Q E st →
  (∀ a st', Q a st' → Q' a st') → (∀ st', E st' → E' st') →
  wp m Q' E' st.
Proof.
  unfold wp. destruct (m st) as [[a| |] st']; eauto.
Qed.
End WP.

Lemma wp_get_config (Q : LocalConfig → state → Prop) E st :
  Q (localConfig st) st → wp get_config Q E st.
Proof. done. Qed.

Lemma wp_put_config (c : LocalConfig) (Q : unit → state → Prop) E st :
  Q tt {| localConfig := c; past := past st |} → wp (put_config c) Q E st.
Proof. done. Qed.

Lemma wp_VersionIsInstalled (v : string) (Q : bool → state → Prop) E st :
  Q (VersionIsInstalled_in (localConfig st) v) st →
  wp (VersionIsInstalled v) Q E st.
Proof. done. Qed.

Lemma wp_GetLocalReleaseInfo (v : string)
    (Q : Error + LocalInstallationInfo → state → Prop) E st :
  Q (GetLocalReleaseInfo_in (localConfig st) v) st →
  wp (GetLocalReleaseInfo v) Q E st.
Proof. done. Qed.

Section WPManager.
Context (env : Env).
Implicit Types (Q : option Error → state → Prop) (E : state → Prop).

Lemma wp_saveConfig Q E st :
  (∀ r h, Q r (with_past st h)) → wp (saveConfig env) Q E st.
Proof.
  intros HQ. unfold wp.
  destruct (saveConfig_effect env st) as (r & h & -> & _). apply HQ.
Qed.

Lemma wp_InstallVersion (v : string) Q E st :
  (∀ r h c',
     c' = localConfig st
     ∨ (∃ release date, c' = record_installation env (localConfig st) release date) →
     Q r {| localConfig := c'; past := h |}) →
  wp (InstallVersion env v) Q E st.
Proof.
  intros HQ. unfold wp.
  destruct (InstallVersion_effect env v st) as (r & h & c' & -> & _ & Hc).
  apply HQ. destruct Hc as [[-> _]|(release & date & _ & ->)]; eauto.
Qed.

Lemma wp_symlink (from to : string) Q E st :
  (∀ r h, Q r (with_past st h)) → wp (symlink env from to) Q E st.
Proof.
  intros HQ. unfold wp, symlink. unfold_M.
  destruct (utils_GetDeviceInfo_Platform env); apply HQ.
Qed.

Lemma wp_exec (args : list string) Q E st :
  (∀ r h, Q r (with_past st h)) → (∀ h, E (with_past st h)) →
  wp (exec env args) Q E st.
Proof.
  intros HQ HE. unfold wp, exec, execWindows, execUnix. unfold_M.
  destruct (utils_GetDeviceInfo_Platform env), args as [|a args];
    simpl; try (destruct st; apply HE).
  - destruct (os_StartProcess env _ _ _); simpl; [apply HQ|].
    destruct (process_Wait env _); apply HQ.
  - destruct (syscall_Exec env _ _ _); [apply HQ | apply HE].
Qed.

Lemma wp_SetDefaultVersion_None Q E st :
  (∀ r h c',
     c' = localConfig st ∨ c' = cleared (localConfig st) →
     (r = None → c' = cleared (localConfig st)) →
     Q r {| localConfig := c'; past := h |}) →
  wp (SetDefaultVersion env None) Q E st.
Proof.
  intros HQ. unfold wp.
  destruct (SetDefaultVersion_None_effect env st)
    as (r & h & c' & -> & _ & Hc & Hr).
  apply HQ; [done|]. intros ->. by destruct (Hr eq_refl).
Qed.
End WPManager.

(** ** The inventory invariant *)

Section Invariant.
Context (env : Env).

Lemma well_formed_record_installation c release date :
  well_formed c → well_formed (record_installation env c release date).
Proof.
  intros [Hk Hd]. split.
  - intros k li. simpl. rewrite lookup_insert.
    case_decide as Hkey; [intros [= <-]; done | apply Hk].
  - intros d Hdef. simpl in *. rewrite lookup_insert_is_Some.
    destruct (decide (Release_Version release = d)); auto.
Qed.

Lemma well_formed_cleared c : well_formed c → well_formed (cleared c).
Proof. intros [Hk _]. split; [exact Hk | by intros d]. Qed.

Lemma well_formed_without c k :
  well_formed c → DefaultVersion c ≠ Some k → well_formed (without k c).
Proof.
  intros [Hk Hd] Hne. split.
  - intros k' li. simpl. rewrite lookup_delete.
    case_decide; [done | apply Hk].
  - intros d Hdef. simpl in *. rewrite lookup_delete_is_Some.
    split; [congruence | auto].
Qed.

Lemma GetLocalReleaseInfo_in_lookup c v li :
  GetLocalReleaseInfo_in c v = inr li →
  ∃ k, LocalInstallations c !! k = Some li.
Proof.
  unfold GetLocalReleaseInfo_in.
  destruct (LocalInstallations c !! v) eqn:H1; [intros [= <-]; eauto|].
  destruct (LocalInstallations c !! ("v" +:+ v)) eqn:H2; [|done].
  intros [= <-]; eauto.
Qed.

Lemma well_formed_set_default c v li :
  well_formed c → GetLocalReleaseInfo_in c v = inr li →
  well_formed {| DefaultVersion := Some (Version li);
                 LocalInstallations := LocalInstallations c |}.
Proof.
  intros [Hk Hd] (k & Hli)%GetLocalReleaseInfo_in_lookup. split; [exact Hk|].
  intros d [= <-]. simpl. rewrite (Hk k li Hli). eauto.
Qed.

Ltac wp_step :=
  lazymatch goal with
  | |- wp (mbind _ _) _ _ _ => apply wp_bind
  | |- wp (ret _) _ _ _ => apply wp_ret
  | |- wp panic _ _ _ => apply wp_panic
  | |- wp (perform _ _) _ _ _ => apply wp_perform
  | |- wp get_config _ _ _ => apply wp_get_config
  | |- wp (put_config _) _ _ _ => apply wp_put_config
  | |- wp (VersionIsInstalled _) _ _ _ => apply wp_VersionIsInstalled
  | |- wp (GetLocalReleaseInfo _) _ _ _ => apply wp_GetLocalReleaseInfo
  | |- wp (saveConfig _) _ _ _ => apply wp_saveConfig; intros ? ?
  | |- wp (symlink _ _ _) _ _ _ => apply wp_symlink; intros ? ?
  | |- wp (exec _ _) _ _ _ => apply wp_exec; [intros ? ? | intros ?]
  end.

Ltac wp_go :=
  repeat wp_step;
  repeat (progress (unfold well_formed_state; simpl); repeat wp_step).

Lemma InstallVersion_well_formed v st :
  well_formed_state st →
  wp (InstallVersion env v) (λ _, well_formed_state) well_formed_state st.
Proof.
  intros Hwf. apply wp_InstallVersion.
  intros r h c' [->|(release & date & ->)]; [done|].
  by apply well_formed_record_installation.
Qed.

Lemma SetDefaultVersion_well_formed version st :
  well_formed_state st →
  wp (SetDefaultVersion env version) (λ _, well_formed_state)
     well_formed_state st.
Proof.
  intros Hwf. unfold SetDefaultVersion. wp_go.
  assert (∀ st0, well_formed_state st0 →
          wp match version with
             | Some version0 =>
                 installed ← VersionIsInstalled version0;
                 err ← (if negb installed
                        then InstallVersion env version0 else ret None);
                 match err with
                 | Some e => ret (Some e)
                 | None =>
                     r ← GetLocalReleaseInfo version0;
                     match r with
                     | inl _ => panic
                     | inr versionToInstall =>
                         err0 ← symlink env (Location versionToInstall)
                                  (config_DefaultDuckdbFile env);
                         match err0 with
                         | Some e => ret (Some e)
                         | None =>
                             c ← get_config;
                             put_config
                               {| DefaultVersion := Some (Version versionToInstall);
                                  LocalInstallations := LocalInstallations c |};;
                             saveConfig env
                         end
                     end
                 end
             | None =>
                 c ← get_config;
                 put_config {| DefaultVersion := None;
                               LocalInstallations := LocalInstallations c |};;
                 saveConfig env
             end (λ _, well_formed_state) well_formed_state st0) as Hrest.
  { clear st Hwf. intros st Hwf. destruct version as [v|]; wp_go.
    2: by apply well_formed_cleared.
    assert (∀ st1, well_formed_state st1 →
            wp (GetLocalReleaseInfo v ≫= λ r,
                match r with
                | inl _ => panic
                | inr versionToInstall =>
                    err0 ← symlink env (Location versionToInstall)
                             (config_DefaultDuckdbFile env);
                    match err0 with
                    | Some e => ret (Some e)
                    | None =>
                        c ← get_config;
                        put_config
                          {| DefaultVersion := Some (Version versionToInstall);
                             LocalInstallations := LocalInstallations c |};;
                        saveConfig env
                    end
                end) (λ _, well_formed_state) well_formed_state st1) as Hlink.
    { clear st Hwf. intros st Hwf. wp_go.
      destruct (GetLocalReleaseInfo_in (localConfig st) v) as [e|li] eqn:Hget;
        wp_go; [done|].
      destruct r; wp_go; [done|]. by eapply well_formed_set_default. }
    destruct (VersionIsInstalled_in (localConfig st) v); simpl.
    - apply wp_ret; simpl. by apply Hlink.
    - eapply wp_mono; [by apply InstallVersion_well_formed| |done].
      intros [e|] st1 Hwf1; simpl; [by wp_go|]. by apply Hlink. }
  destruct (os_Lstat env _ _); wp_go; [by apply Hrest|].
  destruct (os_Remove env _ _); wp_go; [done|]. by apply Hrest.
Qed.

Lemma UninstallVersion_well_formed v st :
  well_formed_state st →
  wp (UninstallVersion env v) (λ _, well_formed_state) well_formed_state st.
Proof.
  intros Hwf. unfold UninstallVersion. wp_go.
  destruct (VersionIsInstalled_in (localConfig st) v); simpl; wp_go; [|done].
  destruct (GetLocalReleaseInfo_in (localConfig st) v) as [e|release];
    wp_go; [done|].
  assert (∀ st1, well_formed_state st1 →
          DefaultVersion (localConfig st1) ≠ Some (Version release) →
          wp (c ← get_config;
              let name :=
                Location (default zeroLocalInstallationInfo
                            (LocalInstallations c !! Version release)) in
              err ← perform (EvRemove name) (λ h, os_Remove env h name);
              match err with
              | Some e =>
                  if negb (os_IsNotExist e) then ret (Some (Wrap e))
                  else
                    c ← get_config;
                    put_config
                      {| DefaultVersion := DefaultVersion c;
                         LocalInstallations :=
                           delete (Version release) (LocalInstallations c) |};;
                    saveConfig env
              | None =>
                  c ← get_config;
                  put_config
                    {| DefaultVersion := DefaultVersion c;
                       LocalInstallations :=
                         delete (Version release) (LocalInstallations c) |};;
                  saveConfig env
              end) (λ _, well_formed_state) well_formed_state st1) as Hrest.
  { clear st Hwf. intros st Hwf Hne. wp_go.
    match goal with |- context [os_Remove env ?h ?n] =>
      destruct (os_Remove env h n) as [e|] end;
      [destruct (os_IsNotExist e); simpl|];
      wp_go; try done; by apply (well_formed_without (localConfig st)). }
  case_bool_decide as Hdef.
  - apply wp_SetDefaultVersion_None. intros [e|] h c' Hc Hr; simpl.
    + wp_go. by destruct Hc as [->| ->]; [|apply well_formed_cleared].
    + rewrite (Hr eq_refl). apply Hrest; [by apply well_formed_cleared|done].
  - apply wp_ret; simpl. by apply Hrest.
Qed.

Lemma Run_well_formed v args st :
  well_formed_state st →
  wp (Run env v args) (λ _, well_formed_state) well_formed_state st.
Proof.
  intros Hwf. unfold Run. wp_go.
  assert (∀ st1, well_formed_state st1 →
          wp (GetLocalReleaseInfo v ≫= λ r,
              match r with
              | inl _ => panic
              | inr release =>
                  let installationTime :=
                    default zeroTime
                      (time_Parse_RFC3339 env (InstallationDate release)) in
                  now ← perform EvNow (time_Now env);
                  err ← (if String.eqb (Version release) "nightly"
                            && isOlderThanOneDay now installationTime
                         then InstallVersion env v else ret None);
                  match err with
                  | Some e => ret (Some e)
                  | None => exec env (Location release :: args)
                  end
              end) (λ _, well_formed_state) well_formed_state st1) as Hrest.
  { clear st Hwf. intros st Hwf. wp_go.
    destruct (GetLocalReleaseInfo_in (localConfig st) v) as [e|release];
      wp_go; [done|].
    destruct (_ && _).
    - eapply wp_mono; [by apply InstallVersion_well_formed| |done].
      intros [e|] st1 Hwf1; simpl; wp_go; done.
    - wp_go; done. }
  destruct (VersionIsInstalled_in (localConfig st) v); simpl.
  - apply wp_ret; simpl. by apply Hrest.
  - eapply wp_mono; [by apply InstallVersion_well_formed| |done].
    intros [e|] st1 Hwf1; simpl; [by wp_go|]. by apply Hrest.
Qed.

Lemma perform_operation_well_formed op st :
  well_formed_state st →
  wp (perform_operation env op) (λ _, well_formed_state) well_formed_state st.
Proof.
  destruct op; simpl;
    auto using InstallVersion_well_formed, UninstallVersion_well_formed,
      SetDefaultVersion_well_formed, Run_well_formed.
Qed.

(** C2, as the code has it.  Start from an inventory in which every
    entry is stored under its own version and the default, if set,
    names a key of the map.  Then after every operation of every
    session of InstallVersion, UninstallVersion, SetDefaultVersion and
    Run - whether it returned nil, returned an error, panicked or
    replaced the process - the inventory is again of that kind: in
    particular the default, if set, names a key of the map. *)
Theorem no_dangling_default (ops : list operation) (st : state) :
  keys_are_versions (localConfig st) →
  default_installed (localConfig st) →
  Forall (λ step, keys_are_versions (localConfig step.2)
                  ∧ default_installed (localConfig step.2))
         (session env ops st).
Proof.
  intros Hk Hd. assert (well_formed_state st) as Hwf by done. clear Hk Hd.
  revert st Hwf. induction ops as [|op ops IH]; intros st Hwf; simpl.
  { constructor. }
  pose proof (perform_operation_well_formed op st Hwf) as Hop.
  unfold wp in Hop.
  destruct (perform_operation env op st) as [[r| |] st'].
  - constructor; [exact Hop | by apply IH].
  - constructor; [exact Hop | constructor].
  - constructor; [exact Hop | constructor].
Qed.
End Invariant.

Lemma no_dangling_default_witness :
  Forall (λ step, keys_are_versions (localConfig step.2)
                  ∧ default_installed (localConfig step.2))
         (session env0
            [OpInstall "0.9.2"; OpSetDefault (Some "0.9.2");
             OpUninstall "0.9.2"; OpSetDefault (Some "0.10.0")]
            (fresh empty_config)).
Proof.
  apply (no_dangling_default env0).
  - intros k li Hli. vm_compute in Hli. discriminate.
  - intros d Hd. discriminate.
Defined.

(** C2 as stated fails from an inventory that satisfies its premise but
    holds an entry under a key other than the entry's version:
    SetDefaultVersion("a") succeeds and records the entry's version "b"
    as the default, and "b" is no key of the map. *)
Lemma dangling_default_from_mislabelled_entry :
  default_installed (cfg_mislabelled None)
  ∧ ∃ st',
      session env0 [OpSetDefault (Some "a")] (fresh (cfg_mislabelled None))
      = [(OpSetDefault (Some "a"), Returns None, st')]
      ∧ DefaultVersion (localConfig st') = Some "b"
      ∧ LocalInstallations (localConfig st') !! "b" = None
      ∧ ¬ default_installed (localConfig st').
Proof.
  split; [by intros d|].
  eexists. split; [vm_compute; reflexivity|].
  split; [reflexivity|]. split; [vm_compute; reflexivity|].
  intros H. specialize (H "b" eq_refl). vm_compute in H. by destruct H.
Qed.

(** ** Run and the rolling build *)

Lemma isOlderThanOneDay_spec (now installationTime : Time) :
  isOlderThanOneDay now installationTime = true
  ↔ (24 * Hour < now - installationTime)%Z.
Proof.
  unfold isOlderThanOneDay, Time_Sub, maxDuration, minDuration, Hour.
  change (2 ^ 63)%Z with 9223372036854775808%Z.
  rewrite Z.ltb_lt.
  destruct (Z.ltb_spec (9223372036854775808 - 1) (now - installationTime));
    [lia|].
  destruct (Z.ltb_spec (now - installationTime) (Z.opp 9223372036854775808));
    lia.
Qed.

Section Rolling.
Context (env : Env).

Lemma InstallVersion_no_launch (v : string) (st : state) :
  ∃ h, past (InstallVersion env v st).2 = past st ++ h
       ∧ Forall (λ e, is_launch e = false) h.
Proof.
  unfold InstallVersion. unfold_M. simpl.
  destruct (client_GetRelease env (past st) v) as [e|release]; simpl.
  { eexists [_]. split; [done|]. by repeat constructor. }
  destruct (utils_GetDownloadUrlFrom env release) as [e|url]; simpl.
  { eexists [_]. split; [done|]. by repeat constructor. }
  destruct (utils_GetResponseBodyFrom env _ url) as [e|asset]; simpl.
  { eexists [_; _]. rewrite <-app_assoc. split; [done|]. by repeat constructor. }
  destruct (utils_ExtractDuckdbFile env asset) as [e|duckDb]; simpl.
  { eexists [_; _]. rewrite <-app_assoc. split; [done|]. by repeat constructor. }
  destruct (os_WriteFile env _ _ duckDb) as [e|]; simpl.
  { eexists [_; _; _]. rewrite <-!app_assoc. split; [done|]. by repeat constructor. }
  rewrite saveConfig_run. simpl.
  destruct (json_MarshalIndent env _) as [e|b]; simpl.
  - eexists [_; _; _; _]. rewrite <-!app_assoc. split; [done|].
    by repeat constructor.
  - eexists [_; _; _; _; _]. rewrite <-!app_assoc. split; [done|].
    by repeat constructor.
Qed.

Lemma exec_effect (args : list string) (st : state) :
  ∃ o h, exec env args st = (o, with_past st (past st ++ h))
         ∧ installs_started h = 0.
Proof.
  unfold exec, execWindows, execUnix. unfold_M.
  destruct (utils_GetDeviceInfo_Platform env), args as [|a args]; simpl;
    try (exists Panics, []; rewrite app_nil_r; by destruct st).
  - destruct (os_StartProcess env _ _ _); simpl.
    { eexists _, [_]. split; [reflexivity|done]. }
    destruct (process_Wait env _); eexists _, [_; _];
      rewrite <-app_assoc; (split; [reflexivity|done]).
  - destruct (syscall_Exec env _ _ _); eexists _, [_];
      (split; [reflexivity|done]).
Qed.

(** What Run does once the version resolves: it reads the clock, starts
    an installation exactly when the entry is a stale rolling build, and
    only afterwards launches. *)
Lemma Run_installed_history (st : state) (v : string) (args : list string)
    (li : LocalInstallationInfo) :
  GetLocalReleaseInfo v st = (Returns (inr li), st) →
  ∃ h_install h_launch,
    past (Run env v args st).2 = past st ++ [EvNow] ++ h_install ++ h_launch
    ∧ installs_started h_install
      = (if decide (stale_rolling env li (time_Now env (past st))) then 1 else 0)
    ∧ (¬ stale_rolling env li (time_Now env (past st)) → h_install = [])
    ∧ Forall (λ e, is_launch e = false) h_install
    ∧ installs_started h_launch = 0.
Proof.
  rewrite GetLocalReleaseInfo_run. intros [= Hget].
  assert (VersionIsInstalled_in (localConfig st) v = true) as Hin.
  { revert Hget. unfold VersionIsInstalled_in, GetLocalReleaseInfo_in.
    destruct (LocalInstallations (localConfig st) !! v); [done|].
    by destruct (LocalInstallations (localConfig st) !! ("v" +:+ v)). }
  unfold Run. unfold_M. simpl. rewrite Hin. simpl.
  unfold GetLocalReleaseInfo. unfold_M. simpl. rewrite Hget. simpl.
  set (now := time_Now env (past st)).
  fold (installedAt env li).
  destruct (decide (stale_rolling env li now)) as [Hstale|Hfresh].
  - pose proof Hstale as [Hver Hold].
    apply isOlderThanOneDay_spec in Hold.
    rewrite Hver, Hold. simpl.
    set (st1 := {| localConfig := localConfig st; past := past st ++ [EvNow] |}).
    destruct (InstallVersion_effect env v st1) as (r & h & c' & Heq & Hh & _).
    destruct (InstallVersion_no_launch v st1) as (h' & Hpast & Hno).
    rewrite Heq in Hpast |- *. simpl in Hpast.
    apply app_inv_head in Hpast. subst h'.
    destruct r as [e|]; simpl.
    + exists (EvGetRelease v :: h), []. rewrite app_nil_r, <-app_assoc.
      split_and!; try done. by rewrite installs_started_cons, Hh.
    + match goal with |- context [exec env ?a ?s] =>
        destruct (exec_effect a s) as (o & hl & -> & Hhl) end.
      exists (EvGetRelease v :: h), hl. simpl. rewrite <-!app_assoc. simpl.
      split_and!; try done. by rewrite installs_started_cons, Hh.
  - assert (String.eqb (Version li) "nightly"
            && isOlderThanOneDay now (installedAt env li) = false) as ->.
    { apply not_true_is_false. intros [Hv Ho]%andb_true_iff.
      apply Hfresh. split; [by apply String.eqb_eq|].
      by apply isOlderThanOneDay_spec. }
    simpl.
    match goal with |- context [exec env ?a ?s] =>
      destruct (exec_effect a s) as (o & hl & -> & Hhl) end.
    exists [], hl. simpl. rewrite <-app_assoc. by split_and!.
Qed.

End Rolling.

(** Run on a version that resolves: it reads the clock; if the entry is
    a stale rolling build it runs InstallVersion and, if that returned
    nil, launches; otherwise it launches at once. *)
Lemma Run_installed_run (env : Env) (st : state) (v : string)
    (args : list string) (li : LocalInstallationInfo) :
  GetLocalReleaseInfo_in (localConfig st) v = inr li →
  Run env v args st =
  (if decide (stale_rolling env li (time_Now env (past st)))
   then reinstall_then_launch env v li args
   else exec env (Location li :: args))
    (with_past st (past st ++ [EvNow])).
Proof.
  intros Hget.
  assert (VersionIsInstalled_in (localConfig st) v = true) as Hin.
  { revert Hget. unfold VersionIsInstalled_in, GetLocalReleaseInfo_in.
    destruct (LocalInstallations (localConfig st) !! v); [done|].
    by destruct (LocalInstallations (localConfig st) !! ("v" +:+ v)). }
  unfold Run, reinstall_then_launch. unfold_M. simpl. rewrite Hin. simpl.
  unfold GetLocalReleaseInfo. unfold_M. simpl. rewrite Hget. simpl.
  fold (installedAt env li).
  destruct (decide (stale_rolling env li (time_Now env (past st))))
    as [[Hver Hold]|Hfresh].
  - apply isOlderThanOneDay_spec in Hold. by rewrite Hver, Hold.
  - assert (String.eqb (Version li) "nightly"
            && isOlderThanOneDay (time_Now env (past st)) (installedAt env li)
            = false) as ->; [|done].
    apply not_true_is_false. intros [Hv Ho]%andb_true_iff.
    apply Hfresh. split; [by apply String.eqb_eq|].
    by apply isOlderThanOneDay_spec.
Qed.

(** C6. Rolling-build freshness.  When the version resolves to an
    installed entry, Run reads the clock and then performs a forced
    re-install - it runs InstallVersion for the version, and launches
    only if that returned nil - if and only if the entry's version is
    "nightly" and its installation time lies more than 24 hours before
    the clock reading; otherwise it launches the binary at once.  It
    starts one installation then and none otherwise, before any launch.
    For a "nightly" entry installed at T, a run at T + 25h performs
    exactly one re-install and a run at T + 1h performs none. *)
Theorem rolling_build_freshness (env : Env) (st : state) (v : string)
    (args : list string) (li : LocalInstallationInfo) :
  GetLocalReleaseInfo v st = (Returns (inr li), st) →
  let now := time_Now env (past st) in
  let read := with_past st (past st ++ [EvNow]) in
  let before := installs_started (past st) in
  let after := installs_started (past (Run env v args st).2) in
  (stale_rolling env li now →
     Run env v args st = reinstall_then_launch env v li args read)
  ∧ (¬ stale_rolling env li now →
       Run env v args st = exec env (Location li :: args) read)
  ∧ (∃ h_install h_launch,
       past (Run env v args st).2 = past st ++ [EvNow] ++ h_install ++ h_launch
       ∧ Forall (λ e, is_launch e = false) h_install
       ∧ installs_started h_launch = 0
       ∧ (installs_started h_install = 1 ↔ stale_rolling env li now)
       ∧ (h_install = [] ↔ ¬ stale_rolling env li now))
  ∧ (after = before + 1 ↔ stale_rolling env li now)
  ∧ (after = before ↔ ¬ stale_rolling env li now)
  ∧ (∀ T, Version li = "nightly" →
          time_Parse_RFC3339 env (InstallationDate li) = Some T →
          (now = (T + 25 * Hour)%Z →
             after = before + 1
             ∧ Run env v args st = reinstall_then_launch env v li args read)
          ∧ (now = (T + 1 * Hour)%Z →
               after = before
               ∧ Run env v args st = exec env (Location li :: args) read)).
Proof.
  intros Hget now read before after.
  pose proof Hget as Hget'. rewrite GetLocalReleaseInfo_run in Hget'.
  injection Hget' as Hget'.
  pose proof (Run_installed_run env st v args li Hget') as Hrun.
  fold now read in Hrun.
  assert ((stale_rolling env li now →
             Run env v args st = reinstall_then_launch env v li args read)
          ∧ (¬ stale_rolling env li now →
               Run env v args st = exec env (Location li :: args) read))
    as [Hstale Hfresh].
  { destruct (decide (stale_rolling env li now)); split; intros; done. }
  destruct (Run_installed_history env st v args li Hget)
    as (hi & hl & Hpast & Hcount & Hnil & Hno & Hl).
  fold now in Hcount, Hnil.
  assert (after = before + if decide (stale_rolling env li now) then 1 else 0)
    as Hafter.
  { unfold after, before. rewrite Hpast, !installs_started_app, Hcount, Hl.
    simpl. lia. }
  assert ((after = before + 1 ↔ stale_rolling env li now)
          ∧ (after = before ↔ ¬ stale_rolling env li now)) as [H1 H0].
  { rewrite Hafter. destruct (decide (stale_rolling env li now)); split; split;
      intros; try done; lia. }
  split_and!; try done.
  - exists hi, hl. split_and!; try done.
    + rewrite Hcount. by destruct (decide (stale_rolling env li now)).
    + split; [|done]. intros -> Hs.
      rewrite decide_True in Hcount by done. done.
  - intros T Hver HT. split; intros Hnow.
    + assert (stale_rolling env li now) as Hs.
      { split; [done|]. unfold installedAt. rewrite HT. simpl.
        unfold Hour in *. lia. }
      split; [by apply H1 | by apply Hstale].
    + assert (¬ stale_rolling env li now) as Hs.
      { intros [_ Hold]. unfold installedAt in Hold.
        rewrite HT in Hold. simpl in Hold. unfold Hour in *. lia. }
      split; [by apply H0 | by apply Hfresh].
Qed.

Lemma rolling_build_freshness_witness :
  (∃ st',
     Run (env_at (1000 + 25 * Hour)%Z) "nightly" [] (fresh (cfg_nightly "1000"))
     = (Replaced, st')
     ∧ past st'
       = [EvNow; EvGetRelease "nightly";
          EvGetResponseBodyFrom "https://releases.example/nightly";
          EvWriteFile "/home/u/.duckman/versions/duckdb-nightly" [];
          EvNow;
          EvWriteFile "/home/u/.duckman/config.json" [];
          EvExec "/d/duckdb-nightly" ["/d/duckdb-nightly"]]
     ∧ installs_started (past st') = 1)
  ∧ Run (env_at (1000 + 1 * Hour)%Z) "nightly" [] (fresh (cfg_nightly "1000"))
    = (Replaced,
       {| localConfig := cfg_nightly "1000";
          past := [EvNow; EvExec "/d/duckdb-nightly" ["/d/duckdb-nightly"]] |}).
Proof.
  split.
  - destruct (rolling_build_freshness (env_at (1000 + 25 * Hour)%Z)
                (fresh (cfg_nightly "1000")) "nightly" []
                {| Version := "nightly"; Location := "/d/duckdb-nightly";
                   InstallationDate := "1000" |} eq_refl)
      as (_ & _ & _ & _ & _ & H).
    destruct (H 1000%Z eq_refl eq_refl) as [H25 _].
    destruct (H25 eq_refl) as [Hcount ->]. eexists.
    split; [vm_compute; reflexivity|]. split; reflexivity.
  - destruct (rolling_build_freshness (env_at (1000 + 1 * Hour)%Z)
                (fresh (cfg_nightly "1000")) "nightly" []
                {| Version := "nightly"; Location := "/d/duckdb-nightly";
                   InstallationDate := "1000" |} eq_refl)
      as (_ & _ & _ & _ & _ & H).
    destruct (H 1000%Z eq_refl eq_refl) as [_ H1].
    destruct (H1 eq_refl) as [_ ->]. vm_compute. reflexivity.
Defined.

(** ** Listings *)

Lemma components_leb_total (a b : list N) :
  components_leb a b = true ∨ components_leb b a = true.
Proof.
  revert b. induction a as [|x a IH]; intros [|y b]; simpl; auto.
  destruct (N.ltb_spec x y), (N.ltb_spec y x), (N.eqb_spec x y),
    (N.eqb_spec y x); simpl; auto; lia.
Qed.

Lemma components_leb_trans (a b c : list N) :
  components_leb a b = true → components_leb b c = true →
  components_leb a c = true.
Proof.
  revert b c. induction a as [|x a IH]; intros [|y b] [|z c]; simpl; auto;
    try done.
  destruct (N.ltb_spec x y), (N.ltb_spec y z), (N.ltb_spec x z),
    (N.eqb_spec x y), (N.eqb_spec y z), (N.eqb_spec x z);
    simpl; eauto; try lia; try done.
Qed.

Lemma components_leb_antisym (a b : list N) :
  components_leb a b = true → components_leb b a = true → a = b.
Proof.
  revert b. induction a as [|x a IH]; intros [|y b]; simpl; auto; try done.
  destruct (N.ltb_spec x y), (N.ltb_spec y x), (N.eqb_spec x y),
    (N.eqb_spec y x); simpl; try lia; try done.
  intros ? ?. subst. f_equal. by apply IH.
Qed.

#[global] Instance components_le_total : Total components_le.
Proof.
  intros a b. unfold components_le.
  destruct (components_leb_total a b) as [->| ->]; auto.
Qed.

#[global] Instance components_le_trans : Transitive components_le.
Proof.
  intros a b c Hab Hbc. unfold components_le in *.
  apply Is_true_true. apply Is_true_true in Hab, Hbc.
  by eapply components_leb_trans.
Qed.

#[global] Instance components_le_antisym : AntiSymm (=) components_le.
Proof.
  intros a b Hab Hba. unfold components_le in *.
  apply Is_true_true in Hab, Hba. by apply components_leb_antisym.
Qed.

#[global] Instance version_le_total : Total version_le.
Proof. intros v w. apply components_le_total. Qed.

Lemma utils_Values_Permutation {V} (order : list string) (m : gmap string V) :
  iteration_order order m → utils_Values order m ≡ₚ (map_to_list m).*2.
Proof.
  unfold iteration_order, utils_Values. intros ->.
  assert (∀ l : list (string * V),
            (∀ k v, (k, v) ∈ l → m !! k = Some v) →
            omap (λ k, m !! k) l.*1 = l.*2) as Hl.
  { induction l as [|[k v] l IH]; intros Hin; [done|]. simpl.
    rewrite (Hin k v) by left. f_equal. apply IH.
    intros k' v' ?. apply Hin. by right. }
  rewrite Hl; [done|]. intros k v. apply elem_of_map_to_list.
Qed.

Lemma sorted_versions_same_components (l1 l2 : list string) :
  Sorted version_le l1 → Sorted version_le l2 → l1 ≡ₚ l2 →
  version_components <$> l1 = version_components <$> l2.
Proof.
  intros H1 H2 Hp.
  apply (Sorted_unique components_le).
  - by apply (Sorted_fmap _ version_le components_le).
  - by apply (Sorted_fmap _ version_le components_le).
  - by rewrite Hp.
Qed.

(** With the helpers as modelled above - and only under that model, since
    [utils.Values] and [utils.SortVersions] themselves are not at hand -
    ListInstalledVersions returns every entry once, in iteration order,
    and LocalVersionList returns the versions of all entries in a
    [version_le]-sorted order; two iteration orders give lists with the
    same components, though versions with equal components (such as
    "0.9.2" and "v0.9.2") may come in either order. *)
Lemma LocalVersionList_with_modelled_helpers (c : LocalConfig) (order : list string) :
  iteration_order order (LocalInstallations c) →
  ListInstalledVersions order c ≡ₚ (map_to_list (LocalInstallations c)).*2
  ∧ (LocalVersionList order c).1
    ≡ₚ Version <$> (map_to_list (LocalInstallations c)).*2
  ∧ Sorted version_le (LocalVersionList order c).1
  ∧ (∀ order', iteration_order order' (LocalInstallations c) →
       version_components <$> (LocalVersionList order' c).1
       = version_components <$> (LocalVersionList order c).1).
Proof.
  intros Horder.
  assert (∀ o, iteration_order o (LocalInstallations c) →
            (LocalVersionList o c).1
            ≡ₚ Version <$> (map_to_list (LocalInstallations c)).*2
            ∧ Sorted version_le (LocalVersionList o c).1) as Hlist.
  { intros o Ho. unfold LocalVersionList, utils_SortVersions, utils_Map.
    simpl. split.
    - rewrite merge_sort_Permutation. unfold ListInstalledVersions.
      by rewrite utils_Values_Permutation.
    - apply (Sorted_merge_sort version_le). }
  split; [by apply utils_Values_Permutation|].
  destruct (Hlist order Horder) as [Hp Hs]. split; [done|]. split; [done|].
  intros order' Horder'. destruct (Hlist order' Horder') as [Hp' Hs'].
  apply sorted_versions_same_components; [done..|]. by rewrite Hp, Hp'.
Qed.

(** ** The self-update advisory *)

(** Everything ShowUpdateWarning can do.  When the client fails it
    returns without printing.  When the client answers and both versions
    parse, it prints the advisory exactly when the remote version is
    greater.  When the client answers and a version does not parse,
    [version.Must] panics. *)
Lemma ShowUpdateWarning_cases (env : Env) (st : state) :
  let asked :=
    with_past st (past st ++ [EvLatestDuckVmRelease (Millisecond * 100)%Z]) in
  match client_LatestDuckVmRelease env (past st) (Millisecond * 100)%Z with
  | inl _ => ShowUpdateWarning env st = (Returns tt, asked)
  | inr latestRelease =>
      match NewVersion (version_lib env) (Release_Version latestRelease),
            NewVersion (version_lib env) (config_Version env) with
      | Some remoteVersion, Some localVersion =>
          ShowUpdateWarning env st
          = (Returns tt,
             if GreaterThan (version_lib env) remoteVersion localVersion
             then with_past st (past asked ++ [EvPrintln updateAdvisory])
             else asked)
      | _, _ => ShowUpdateWarning env st = (Panics, asked)
      end
  end.
Proof.
  unfold ShowUpdateWarning. unfold_M. simpl.
  destruct (client_LatestDuckVmRelease env _ _) as [e|latestRelease]; [done|].
  destruct (NewVersion _ (Release_Version latestRelease)); [|done].
  destruct (NewVersion _ (config_Version env)); [|done].
  by destruct (GreaterThan _ _ _).
Qed.

(** C8, where the code falls short of it.  The client answers in time
    with a latest release tagged "latest", which is no version number:
    ShowUpdateWarning does not return silently, it panics. *)
Theorem update_warning_panics_on_unparsable_tag :
  client_LatestDuckVmRelease env_named_release [] (Millisecond * 100)%Z
  = inr {| Release_Version := "latest"; Release_Assets := [] |}
  ∧ NewVersion (version_lib env_named_release) "latest" = None
  ∧ ShowUpdateWarning env_named_release (fresh empty_config)
    = (Panics,
       {| localConfig := empty_config;
          past := [EvLatestDuckVmRelease (Millisecond * 100)%Z] |}).
Proof. split_and!; reflexivity. Qed.

(** * Further properties of the manager *)

(** ** InstallVersion *)

(** A successful InstallVersion, step by step: the five calls it made,
    in order, and the inventory it left. *)
Lemma InstallVersion_ok (env : Env) (v : string) (st st' : state) :
  InstallVersion env v st = (Returns None, st') →
  ∃ release url asset duckDb b,
    client_GetRelease env (past st) v = inr release
    ∧ utils_GetDownloadUrlFrom env release = inr url
    ∧ utils_GetResponseBodyFrom env (past st ++ [EvGetRelease v]) url = inr asset
    ∧ utils_ExtractDuckdbFile env asset = inr duckDb
    ∧ let name := config_VersionDir env +:+ "/" +:+ config_DuckDBName env
                    +:+ "-" +:+ Release_Version release in
      let h3 := past st ++ [EvGetRelease v; EvGetResponseBodyFrom url;
                            EvWriteFile name duckDb] in
      localConfig st'
      = record_installation env (localConfig st) release
          (time_MarshalText env (time_Now env h3))
      ∧ json_MarshalIndent env (localConfig st') = inr b
      ∧ past st' = h3 ++ [EvNow; EvWriteFile (config_File env) b].
Proof.
  unfold InstallVersion. unfold_M. simpl.
  destruct (client_GetRelease env (past st) v) as [e|release] eqn:Hrel; [done|].
  destruct (utils_GetDownloadUrlFrom env release) as [e|url] eqn:Hurl; [done|]. simpl.
  destruct (utils_GetResponseBodyFrom env _ url) as [e|asset] eqn:Hasset; [done|].
  destruct (utils_ExtractDuckdbFile env asset) as [e|duckDb] eqn:Hduck; [done|]. simpl.
  destruct (os_WriteFile env _ _ duckDb) as [e|]; [done|]. simpl.
  rewrite saveConfig_run. simpl.
  destruct (json_MarshalIndent env _) as [e|b] eqn:Hb; [done|].
  destruct (os_WriteFile env _ (config_File env) b); [done|].
  intros [= <-]. exists release, url, asset, duckDb, b. simpl.
  rewrite <-!app_assoc in *. simpl in *. split_and!; try done.
Qed.

(** X1. A successful InstallVersion(v) stores the release the client
    named under the release's version: looking that version up returns
    the new entry, whose location is the file the binary was written to;
    every other key and the default are as before, and the last thing
    done was to write the new inventory to the config file. *)
Theorem install_records_where_it_wrote
    (env : Env) (v : string) (st st' : state) :
  InstallVersion env v st = (Returns None, st') →
  ∃ release li url duckDb b,
    client_GetRelease env (past st) v = inr release
    ∧ Version li = Release_Version release
    ∧ GetLocalReleaseInfo (Release_Version release) st' = (Returns (inr li), st')
    ∧ (∀ k, k ≠ Release_Version release →
            LocalInstallations (localConfig st') !! k
            = LocalInstallations (localConfig st) !! k)
    ∧ DefaultVersion (localConfig st') = DefaultVersion (localConfig st)
    ∧ json_MarshalIndent env (localConfig st') = inr b
    ∧ past st' = past st ++ [EvGetRelease v; EvGetResponseBodyFrom url;
                             EvWriteFile (Location li) duckDb; EvNow;
                             EvWriteFile (config_File env) b].
Proof.
  intros (release & url & asset & duckDb & b & Hrel & _ & _ & _ & Hc & Hb & Hp)
    %InstallVersion_ok.
  simpl in Hc, Hp.
  eexists release, (installed_entry env release _), url, duckDb, b.
  split_and!; try done.
  - rewrite GetLocalReleaseInfo_run, Hc. unfold GetLocalReleaseInfo_in. simpl.
    by rewrite lookup_insert_eq.
  - intros k Hk. rewrite Hc. simpl. by rewrite lookup_insert_ne.
  - by rewrite Hc.
  - rewrite Hp, <-app_assoc. done.
Qed.

Lemma install_records_where_it_wrote_witness :
  ∃ st' li,
    InstallVersion env_v "0.9.2" (fresh cfg_two) = (Returns None, st')
    ∧ GetLocalReleaseInfo "v0.9.2" st' = (Returns (inr li), st')
    ∧ Location li = "/home/u/.duckman/versions/duckdb-v0.9.2".
Proof.
  eexists.
  assert (InstallVersion env_v "0.9.2" (fresh cfg_two) = (Returns None, _))
    as Hrun by (vm_compute; reflexivity).
  destruct (install_records_where_it_wrote env_v "0.9.2" _ _ Hrun)
    as (release & li & url & duckDb & b & Hrel & Hver & Hget & _).
  injection Hrel as <-. simpl in Hget.
  exists li. split; [exact Hrun|]. split; [exact Hget|].
  rewrite GetLocalReleaseInfo_run in Hget. vm_compute in Hget.
  by injection Hget as <-.
Defined.


(** X3. When InstallVersion returns an error, the inventory in memory
    is as before - unless the failing step was the final save (the
    inventory could not be marshalled, or the config file not written):
    then the binary is on disk and the new entry is in memory, but not in
    the config file. *)
Theorem install_error_leaves_inventory
    (env : Env) (v : string) (st st' : state) (e : Error) :
  InstallVersion env v st = (Returns (Some e), st') →
  localConfig st' = localConfig st
  ∨ ∃ release date oe,
      client_GetRelease env (past st) v = inr release
      ∧ localConfig st' = record_installation env (localConfig st) release date
      ∧ e = Wrap oe
      ∧ (json_MarshalIndent env (localConfig st') = inl oe
         ∨ ∃ h0 b, json_MarshalIndent env (localConfig st') = inr b
                   ∧ past st' = h0 ++ [EvWriteFile (config_File env) b]
                   ∧ os_WriteFile env h0 (config_File env) b = Some oe).
Proof.
  unfold InstallVersion. unfold_M. simpl.
  destruct (client_GetRelease env (past st) v) as [e'|release] eqn:Hrel.
  { intros [= _ <-]. by left. }
  destruct (utils_GetDownloadUrlFrom env release) as [e'|url].
  { intros [= _ <-]. by left. }
  simpl.
  destruct (utils_GetResponseBodyFrom env _ url) as [e'|asset].
  { intros [= _ <-]. by left. }
  destruct (utils_ExtractDuckdbFile env asset) as [e'|duckDb].
  { intros [= _ <-]. by left. }
  simpl.
  destruct (os_WriteFile env _ _ duckDb) as [e'|].
  { intros [= _ <-]. by left. }
  simpl. rewrite saveConfig_run. simpl.
  destruct (json_MarshalIndent env _) as [oe|b] eqn:Hb.
  - intros [= <- <-]. right. eexists release, _, oe. simpl.
    split_and!; try done. by left.
  - destruct (os_WriteFile env _ (config_File env) b) as [oe|] eqn:Hw; [|done].
    intros [= <- <-]. right. eexists release, _, oe. simpl.
    split_and!; try done. right. eexists _, b. by split_and!.
Qed.

Lemma install_error_leaves_inventory_witness :
  ∃ st' e,
    InstallVersion (rough_env PlatformUnix same_name nothing_fails read_only_config)
      "0.9.2" (fresh empty_config) = (Returns (Some e), st')
    ∧ is_Some (LocalInstallations (localConfig st') !! "0.9.2").
Proof.
  eexists _, _.
  assert (InstallVersion
            (rough_env PlatformUnix same_name nothing_fails read_only_config)
            "0.9.2" (fresh empty_config) = (Returns (Some _), _))
    as Hrun by (vm_compute; reflexivity).
  split; [exact Hrun|].
  destruct (install_error_leaves_inventory _ _ _ _ _ Hrun)
    as [Hsame|(release & date & oe & Hrel & Hc & _)].
  - vm_compute in Hsame. discriminate Hsame.
  - injection Hrel as <-. rewrite Hc. simpl. rewrite lookup_insert_eq. eauto.
Defined.

(** ** UninstallVersion *)

(** Uninstalling a version that is not the default: the binary at the
    entry's recorded location is removed, and unless that fails for
    another reason than the file being absent, the entry is deleted and
    the inventory saved. *)
Lemma UninstallVersion_not_default (env : Env) (st : state) (v k : string)
    (li : LocalInstallationInfo) :
  resolved_key (localConfig st) v = Some k →
  LocalInstallations (localConfig st) !! k = Some li →
  Version li = k →
  DefaultVersion (localConfig st) ≠ Some k →
  UninstallVersion env v st =
  let st1 := with_past st (past st ++ [EvRemove (Location li)]) in
  let delete_and_save :=
    saveConfig env {| localConfig := without k (localConfig st);
                      past := past st1 |} in
  match os_Remove env (past st) (Location li) with
  | Some e =>
      if os_IsNotExist e then delete_and_save
      else (Returns (Some (Wrap e)), st1)
  | None => delete_and_save
  end.
Proof.
  intros Hkey Hli Hver Hdef.
  pose proof (GetLocalReleaseInfo_in_resolved (localConfig st) v) as Hres.
  rewrite Hkey in Hres. destruct Hres as (li' & Hli' & Hget).
  rewrite Hli in Hli'. injection Hli' as <-.
  assert (VersionIsInstalled_in (localConfig st) v = true) as Hin.
  { apply VersionIsInstalled_in_resolved. rewrite Hkey. eauto. }
  unfold UninstallVersion. unfold_M. simpl.
  rewrite Hin. simpl. unfold GetLocalReleaseInfo. unfold_M. simpl.
  rewrite Hget. simpl.
  rewrite Hver, bool_decide_eq_false_2 by done. simpl.
  rewrite Hli. simpl.
  destruct (os_Remove env (past st) (Location li)) as [e|]; [|done].
  by destruct (os_IsNotExist e).
Qed.

(** X4. A successful UninstallVersion of a version that is not the
    default makes exactly two calls - it removes the file at the entry's
    recorded location and writes the config file - and leaves the
    inventory without that entry; the default and the default file are
    not touched.  This also holds when the file was already gone. *)
Theorem uninstall_removes_entry_and_file (env : Env) (st st' : state)
    (v k : string) (li : LocalInstallationInfo) :
  resolved_key (localConfig st) v = Some k →
  LocalInstallations (localConfig st) !! k = Some li →
  Version li = k →
  DefaultVersion (localConfig st) ≠ Some k →
  UninstallVersion env v st = (Returns None, st') →
  ∃ b,
    localConfig st' = without k (localConfig st)
    ∧ GetLocalReleaseInfo k st'
      = (Returns (match LocalInstallations (localConfig st) !! ("v" +:+ k) with
                  | Some li' => inr li'
                  | None => inl (NewF "Version '%s' not found in local versions" k)
                  end), st')
    ∧ json_MarshalIndent env (localConfig st') = inr b
    ∧ past st' = past st ++ [EvRemove (Location li);
                             EvWriteFile (config_File env) b].
Proof.
  intros Hkey Hli Hver Hdef.
  rewrite (UninstallVersion_not_default env st v k li) by done. simpl.
  assert (∀ s, localConfig s = without k (localConfig st) →
               past s = past st ++ [EvRemove (Location li)] →
               saveConfig env s = (Returns None, st') →
               ∃ b, localConfig st' = without k (localConfig st)
                    ∧ GetLocalReleaseInfo k st'
                      = (Returns (match LocalInstallations (localConfig st)
                                        !! ("v" +:+ k) with
                                  | Some li' => inr li'
                                  | None => inl (NewF "Version '%s' not found in local versions" k)
                                  end), st')
                    ∧ json_MarshalIndent env (localConfig st') = inr b
                    ∧ past st' = past st ++ [EvRemove (Location li);
                                             EvWriteFile (config_File env) b])
    as Hsave.
  { intros s Hc Hp (b & Hb & ->)%saveConfig_ok. exists b. simpl.
    rewrite Hp, <-app_assoc, Hc in *. split_and!; try done.
    rewrite GetLocalReleaseInfo_run. simpl. rewrite Hc.
    unfold GetLocalReleaseInfo_in. simpl.
    rewrite lookup_delete_eq, lookup_delete_ne; [done|].
    intros Heq. apply (f_equal String.length) in Heq.
    cbv [String.append] in Heq. simpl in Heq. lia. }
  destruct (os_Remove env (past st) (Location li)) as [e|].
  - destruct (os_IsNotExist e); [|done]. by apply Hsave.
  - by apply Hsave.
Qed.

Lemma uninstall_removes_entry_and_file_witness :
  ∃ st',
    UninstallVersion env0 "0.9.2" (fresh cfg_two) = (Returns None, st')
    ∧ past st' = [EvRemove "/d/duckdb-v0.9.2";
                  EvWriteFile "/home/u/.duckman/config.json" []].
Proof.
  eexists.
  assert (UninstallVersion env0 "0.9.2" (fresh cfg_two) = (Returns None, _))
    as Hrun by (vm_compute; reflexivity).
  split; [exact Hrun|].
  destruct (uninstall_removes_entry_and_file env0 (fresh cfg_two) _
              "0.9.2" "v0.9.2" (mkInfo "v0.9.2" "/d/duckdb-v0.9.2" "100")
              eq_refl eq_refl eq_refl ltac:(discriminate) Hrun)
    as (b & _ & _ & Hb & Hp).
  injection Hb as <-. exact Hp.
Defined.

(** X5. When the binary of a version that is not the default cannot be
    removed, for another reason than its absence, UninstallVersion
    returns that error wrapped, right after the failed removal: the entry
    stays in the inventory and the config file is not written. *)
Theorem uninstall_keeps_entry_when_removal_fails (env : Env) (st : state)
    (v k : string) (li : LocalInstallationInfo) (e : OsError) :
  resolved_key (localConfig st) v = Some k →
  LocalInstallations (localConfig st) !! k = Some li →
  Version li = k →
  DefaultVersion (localConfig st) ≠ Some k →
  os_Remove env (past st) (Location li) = Some e →
  os_IsNotExist e = false →
  UninstallVersion env v st
  = (Returns (Some (Wrap e)),
     {| localConfig := localConfig st;
        past := past st ++ [EvRemove (Location li)] |}).
Proof.
  intros Hkey Hli Hver Hdef Hrm Hne.
  rewrite (UninstallVersion_not_default env st v k li) by done. simpl.
  by rewrite Hrm, Hne.
Qed.

Lemma uninstall_keeps_entry_when_removal_fails_witness :
  UninstallVersion (rough_env PlatformUnix same_name busy_binaries nothing_fails)
    "0.9.2" (fresh cfg_two)
  = (Returns (Some (Wrap (ErrOther "text file busy"))),
     {| localConfig := cfg_two; past := [EvRemove "/d/duckdb-v0.9.2"] |}).
Proof.
  apply (uninstall_keeps_entry_when_removal_fails
           (rough_env PlatformUnix same_name busy_binaries nothing_fails)
           (fresh cfg_two) "0.9.2" "v0.9.2"
           (mkInfo "v0.9.2" "/d/duckdb-v0.9.2" "100"));
    first [reflexivity | discriminate].
Defined.

(** ** Resolution and round trips *)

(** X12. In an inventory whose entries are stored under their own
    version, an entry that some version string resolves to is found again
    under its own version: GetLocalReleaseInfo(s) = li implies
    GetLocalReleaseInfo(li.Version) = li. *)
Theorem found_entry_resolves_to_itself (st : state) (s : string)
    (li : LocalInstallationInfo) :
  keys_are_versions (localConfig st) →
  GetLocalReleaseInfo s st = (Returns (inr li), st) →
  GetLocalReleaseInfo (Version li) st = (Returns (inr li), st)
  ∧ VersionIsInstalled (Version li) st = (Returns true, st)
  ∧ (Version li = s ∨ Version li = "v" +:+ s).
Proof.
  intros Hk. rewrite !GetLocalReleaseInfo_run, VersionIsInstalled_run.
  intros [= Hget].
  assert (LocalInstallations (localConfig st) !! Version li = Some li
          ∧ (Version li = s ∨ Version li = "v" +:+ s)) as [Hli Hor].
  { revert Hget. unfold GetLocalReleaseInfo_in.
    destruct (LocalInstallations (localConfig st) !! s) as [li'|] eqn:H1.
    - intros [= ->]. rewrite (Hk _ _ H1). auto.
    - destruct (LocalInstallations (localConfig st) !! ("v" +:+ s))
        as [li'|] eqn:H2; [|done].
      intros [= ->]. rewrite (Hk _ _ H2). auto. }
  unfold GetLocalReleaseInfo_in, VersionIsInstalled_in. by rewrite Hli.
Qed.

Lemma found_entry_resolves_to_itself_witness :
  GetLocalReleaseInfo "v0.10.0" (fresh cfg_two)
  = (Returns (inr (mkInfo "v0.10.0" "/d/duckdb-v0.10.0" "200")), fresh cfg_two).
Proof.
  apply (found_entry_resolves_to_itself (fresh cfg_two) "0.10.0"
           (mkInfo "v0.10.0" "/d/duckdb-v0.10.0" "200")).
  - intros k li. simpl. rewrite !lookup_insert. repeat case_decide; try done.
    + by intros [= <-].
    + by intros [= <-].
  - reflexivity.
Defined.



(** ** SetDefaultVersion *)



(** ** What success and failure leave behind *)

Lemma wp_saveConfig_exact (env : Env) (Q : option Error → state → Prop)
    (E : state → Prop) (st : state) :
  (∀ oe, json_MarshalIndent env (localConfig st) = inl oe →
         Q (Some (Wrap oe)) st) →
  (∀ b, json_MarshalIndent env (localConfig st) = inr b →
        Q (Wrap_opt (os_WriteFile env (past st) (config_File env) b))
          (with_past st (past st ++ [EvWriteFile (config_File env) b]))) →
  wp (saveConfig env) Q E st.
Proof.
  intros Hmarshal Hwrite. unfold wp. rewrite saveConfig_run.
  destruct (json_MarshalIndent env (localConfig st)); auto.
Qed.

Lemma wp_symlink_config (env : Env) (from to : string)
    (Q : option Error → state → Prop) (E : state → Prop) (st : state) :
  (∀ r h, Q r {| localConfig := localConfig st; past := h |}) →
  wp (symlink env from to) Q E st.
Proof. intros HQ. apply wp_symlink. intros r h. apply HQ. Qed.

Lemma wp_final {A} (m : M A) (P : state → Prop) (st : state) :
  wp m (λ _, P) P st → P (m st).2.
Proof. unfold wp. by destruct (m st) as [[a| |] st']. Qed.

Ltac wp_exact_step :=
  lazymatch goal with
  | |- wp (mbind _ _) _ _ _ => apply wp_bind
  | |- wp (ret _) _ _ _ => apply wp_ret
  | |- wp panic _ _ _ => apply wp_panic
  | |- wp (perform _ _) _ _ _ => apply wp_perform
  | |- wp get_config _ _ _ => apply wp_get_config
  | |- wp (put_config _) _ _ _ => apply wp_put_config
  | |- wp (VersionIsInstalled _) _ _ _ => apply wp_VersionIsInstalled
  | |- wp (GetLocalReleaseInfo _) _ _ _ => apply wp_GetLocalReleaseInfo
  | |- wp (saveConfig _) _ _ _ =>
      apply wp_saveConfig_exact; [intros ? ?|intros ? ?]
  | |- wp (symlink _ _ _) _ _ _ => apply wp_symlink_config; intros ? ?
  end.

Ltac wp_exact :=
  repeat wp_exact_step;
  repeat (progress simpl; repeat wp_exact_step).

(** X8. Success means saved.  Whenever InstallVersion, UninstallVersion
    or SetDefaultVersion returns nil, the last call it made was to write
    the config file, and what it wrote is the inventory it leaves in
    memory. *)
Theorem success_means_saved (env : Env) (op : operation) (st st' : state) :
  (∀ version args, op ≠ OpRun version args) →
  perform_operation env op st = (Returns None, st') →
  persisted env (localConfig st') (past st').
Proof.
  intros Hop Hrun.
  assert (wp (perform_operation env op)
             (λ r s, r = None → persisted env (localConfig s) (past s))
             (λ _, True) st) as Hwp.
  { clear Hrun st'.
    destruct op as [v|v|o|v args]; simpl.
    - unfold wp.
      destruct (InstallVersion env v st) as [[[e|]| |] s] eqn:Hi; try done.
      intros _.
      apply InstallVersion_ok
        in Hi as (release & url & asset & duckDb & b & _ & _ & _ & _ & _ & Hb & Hp).
      simpl in Hp. eexists (_ ++ [EvNow]), b. split; [done|].
      rewrite Hp, <-(app_assoc _ [EvNow]). done.
    - unfold UninstallVersion. wp_exact.
      destruct (VersionIsInstalled_in (localConfig st) v); simpl;
        wp_exact; [|done].
      destruct (GetLocalReleaseInfo_in (localConfig st) v) as [e|release];
        wp_exact; [done|].
      case_bool_decide;
        [apply wp_SetDefaultVersion_None; intros [e|] h c' _ _; simpl|];
        wp_exact; try done.
      all: match goal with |- context [os_Remove ?ev ?h ?n] =>
             destruct (os_Remove ev h n) as [e|];
               [destruct (os_IsNotExist e); simpl|] end;
           wp_exact; try done.
      all: intros _; eexists _, _; split; [eassumption|reflexivity].
    - unfold SetDefaultVersion. wp_exact.
      destruct (os_Lstat env _ _); wp_exact.
      2: destruct (os_Remove env _ _); wp_exact; [done|].
      all: destruct o as [v|]; wp_exact; try done.
      all: try (intros _; eexists _, _; split; [eassumption|reflexivity]).
      all: destruct (VersionIsInstalled_in (localConfig st) v); simpl;
             [wp_exact
             |apply wp_InstallVersion; intros [e|] h c' _; simpl;
              wp_exact; try done].
      all: match goal with |- wp (match ?x with _ => _ end) _ _ _ =>
             destruct x end;
           wp_exact; try done.
      all: match goal with |- wp (match ?x with _ => _ end) _ _ _ =>
             destruct x end;
           wp_exact; try done.
      all: intros _; eexists _, _; split; [eassumption|reflexivity].
    - by destruct (Hop v args). }
  unfold wp in Hwp. rewrite Hrun in Hwp. by apply Hwp.
Qed.

Lemma success_means_saved_witness :
  ∃ st',
    InstallVersion env0 "0.9.2" (fresh empty_config) = (Returns None, st')
    ∧ persisted env0 (localConfig st') (past st').
Proof.
  eexists.
  assert (perform_operation env0 (OpInstall "0.9.2") (fresh empty_config)
          = (Returns None, _)) as Hrun by (vm_compute; reflexivity).
  split; [exact Hrun|].
  apply (success_means_saved env0 (OpInstall "0.9.2") (fresh empty_config) _);
    [discriminate | exact Hrun].
Defined.

(** X7. Whatever SetDefaultVersion does - return nil, return an error
    or panic - the default it leaves is either the default it found, or
    what was asked for: none for nil, and for v the version of the entry
    that v resolves to in the inventory it leaves. *)
Theorem default_is_old_or_asked (env : Env) (o : option string) (st : state) :
  let st' := (SetDefaultVersion env o st).2 in
  DefaultVersion (localConfig st') = DefaultVersion (localConfig st)
  ∨ match o with
    | None => DefaultVersion (localConfig st') = None
    | Some v =>
        ∃ li, GetLocalReleaseInfo v st' = (Returns (inr li), st')
              ∧ DefaultVersion (localConfig st') = Some (Version li)
    end.
Proof.
  apply (wp_final (SetDefaultVersion env o)
           (λ s, DefaultVersion (localConfig s) = DefaultVersion (localConfig st)
                 ∨ match o with
                   | None => DefaultVersion (localConfig s) = None
                   | Some v =>
                       ∃ li, GetLocalReleaseInfo v s = (Returns (inr li), s)
                             ∧ DefaultVersion (localConfig s) = Some (Version li)
                   end)).
  unfold SetDefaultVersion. wp_exact.
  destruct (os_Lstat env _ _); wp_exact.
  2: destruct (os_Remove env _ _); wp_exact; [by left|].
  all: destruct o as [v|]; wp_exact; try (by right); try (by left).
  all: destruct (VersionIsInstalled_in (localConfig st) v); simpl;
         [wp_exact
         |apply wp_InstallVersion;
          intros [e|] h c' [->|(release & date & ->)]; simpl;
          wp_exact; try (by left)].
  all: match goal with |- wp (match ?x with _ => _ end) _ _ _ =>
         destruct x as [e|li] eqn:Hget end;
       wp_exact; try (by left).
  all: match goal with |- wp (match ?x with _ => _ end) _ _ _ =>
         destruct x end;
       wp_exact; try (by left).
  all: right; exists li; rewrite GetLocalReleaseInfo_run; simpl;
       split; [|done]; f_equal; f_equal; exact Hget.
Qed.

(** ** Run *)

Lemma exec_launch (env : Env) (name : string) (args : list string) (st : state) :
  ∃ o h,
    exec env (name :: args) st = (o, with_past st (past st ++ h))
    ∧ o ≠ Panics
    ∧ filter (λ e, is_launch e = true) h
      = [launch_event (utils_GetDeviceInfo_Platform env) name (name :: args)]
    ∧ match utils_GetDeviceInfo_Platform env with
      | PlatformUnix => o ≠ Returns None
      | PlatformWindows => o ≠ Replaced
      end.
Proof.
  unfold exec, execWindows, execUnix, launch_event. unfold_M.
  destruct (utils_GetDeviceInfo_Platform env); simpl.
  - destruct (os_StartProcess env _ _ _); simpl.
    { eexists _, [_]. by split_and!. }
    destruct (process_Wait env _); eexists _, [_; _];
      (split; [unfold with_past; simpl; by rewrite <-app_assoc | by split_and!]).
  - destruct (syscall_Exec env _ _ _); eexists _, [_]; by split_and!.
Qed.

(** Run on a version that resolves: after the clock reading and the
    re-install, if any, either the re-install failed and its error is
    returned, or the binary at the entry's location is launched. *)
Lemma Run_installed_shape (env : Env) (st : state) (v : string)
    (args : list string) (li : LocalInstallationInfo) :
  GetLocalReleaseInfo_in (localConfig st) v = inr li →
  ∃ hi s1,
    past s1 = past st ++ hi
    ∧ Forall (λ e, is_launch e = false) hi
    ∧ ((∃ e, Run env v args st = (Returns (Some e), s1))
       ∨ Run env v args st = exec env (Location li :: args) s1).
Proof.
  intros Hget.
  assert (VersionIsInstalled_in (localConfig st) v = true) as Hin.
  { revert Hget. unfold VersionIsInstalled_in, GetLocalReleaseInfo_in.
    destruct (LocalInstallations (localConfig st) !! v); [done|].
    by destruct (LocalInstallations (localConfig st) !! ("v" +:+ v)). }
  unfold Run. unfold_M. simpl. rewrite Hin. simpl.
  unfold GetLocalReleaseInfo. unfold_M. simpl. rewrite Hget. simpl.
  destruct (_ && _).
  - set (st1 := {| localConfig := localConfig st; past := past st ++ [EvNow] |}).
    destruct (InstallVersion_effect env v st1) as (r & h & c' & Heq & _ & _).
    destruct (InstallVersion_no_launch env v st1) as (h' & Hpast & Hno).
    rewrite Heq in Hpast |- *. simpl in Hpast.
    apply app_inv_head in Hpast. subst h'.
    exists (EvNow :: EvGetRelease v :: h),
      {| localConfig := c'; past := past st1 ++ EvGetRelease v :: h |}. simpl.
    split; [by rewrite <-app_assoc|]. split; [by constructor|].
    destruct r as [e|]; simpl; eauto.
  - exists [EvNow],
      {| localConfig := localConfig st; past := past st ++ [EvNow] |}. simpl.
    split; [done|]. split; [by repeat constructor|]. by right.
Qed.

(** Run on a version that does not resolve ends in an error or a panic,
    or goes on as Run from a state in which the version resolves. *)
Lemma Run_unresolved (env : Env) (st : state) (v : string) (args : list string) :
  VersionIsInstalled_in (localConfig st) v = false →
  ∃ s1,
    (∃ e, Run env v args st = (Returns (Some e), s1))
    ∨ Run env v args st = (Panics, s1)
    ∨ ((∃ li, GetLocalReleaseInfo_in (localConfig s1) v = inr li)
       ∧ Run env v args st = Run env v args s1).
Proof.
  intros Hno.
  destruct (InstallVersion_effect env v st) as (r & h & c' & Heq & _ & _).
  eexists {| localConfig := c'; past := past st ++ EvGetRelease v :: h |}.
  unfold Run at 1 2 3. unfold_M. simpl. rewrite Hno. simpl. rewrite Heq.
  destruct r as [e|]; [eauto|]. simpl.
  destruct (GetLocalReleaseInfo_in c' v) as [e|li] eqn:Hget; [eauto|].
  right. right. split; [eauto|].
  assert (VersionIsInstalled_in c' v = true) as Hin.
  { revert Hget. unfold VersionIsInstalled_in, GetLocalReleaseInfo_in.
    destruct (LocalInstallations c' !! v); [done|].
    by destruct (LocalInstallations c' !! ("v" +:+ v)). }
  unfold Run. unfold_M. simpl. rewrite Hin. simpl.
  unfold GetLocalReleaseInfo. unfold_M. simpl. by rewrite Hget.
Qed.

(** X11. Run on a version that does not resolve is InstallVersion
    followed by Run.  If the installation fails, Run returns its error
    and does nothing more.  If it succeeds and the version now resolves,
    Run goes on as from the new inventory.  If it succeeds but the
    client named the release so that the version still does not
    resolve, Run panics - with the binary written and the inventory
    saved. *)
Theorem run_installs_then_runs (env : Env) (st : state) (v : string)
    (args : list string) :
  VersionIsInstalled v st = (Returns false, st) →
  ∃ r st1,
    InstallVersion env v st = (Returns r, st1)
    ∧ Run env v args st
      = match r with
        | Some e => (Returns (Some e), st1)
        | None =>
            match GetLocalReleaseInfo_in (localConfig st1) v with
            | inl _ => (Panics, st1)
            | inr _ => Run env v args st1
            end
        end.
Proof.
  rewrite VersionIsInstalled_run. intros [= Hno].
  destruct (InstallVersion_effect env v st) as (r & h & c' & Heq & _ & _).
  eexists r, _. split; [exact Heq|].
  unfold Run at 1. unfold_M. simpl. rewrite Hno. simpl. rewrite Heq.
  destruct r as [e|]; [done|]. simpl.
  destruct (GetLocalReleaseInfo_in c' v) as [e|li] eqn:Hget; [done|].
  assert (VersionIsInstalled_in c' v = true) as Hin.
  { revert Hget. unfold VersionIsInstalled_in, GetLocalReleaseInfo_in.
    destruct (LocalInstallations c' !! v); [done|].
    by destruct (LocalInstallations c' !! ("v" +:+ v)). }
  unfold Run. unfold_M. simpl. rewrite Hin. simpl.
  unfold GetLocalReleaseInfo. unfold_M. simpl. by rewrite Hget.
Qed.

Lemma run_installs_then_runs_witness :
  (Run (rough_env PlatformUnix always_v100 nothing_fails nothing_fails)
       "latest" [] (fresh empty_config)).1 = Panics.
Proof.
  destruct (run_installs_then_runs
              (rough_env PlatformUnix always_v100 nothing_fails nothing_fails)
              (fresh empty_config) "latest" [] eq_refl)
    as (r & st1 & Hinst & ->).
  vm_compute in Hinst. injection Hinst as <- <-. reflexivity.
Defined.

(** X9. How Run can end depends on the platform.  Where the launch
    replaces the process image, Run never returns nil: it returns an
    error, panics, or is replaced.  On Windows, where the launch is a
    child process that is waited for, the process is never replaced. *)
Theorem run_ends_by_platform (env : Env) (st : state) (v : string)
    (args : list string) :
  match utils_GetDeviceInfo_Platform env with
  | PlatformUnix => (Run env v args st).1 ≠ Returns None
  | PlatformWindows => (Run env v args st).1 ≠ Replaced
  end.
Proof.
  assert (∀ s li, GetLocalReleaseInfo_in (localConfig s) v = inr li →
                  match utils_GetDeviceInfo_Platform env with
                  | PlatformUnix => (Run env v args s).1 ≠ Returns None
                  | PlatformWindows => (Run env v args s).1 ≠ Replaced
                  end) as Hres.
  { intros s li Hget.
    destruct (Run_installed_shape env s v args li Hget)
      as (hi & s1 & _ & _ & [(e & ->)| ->]).
    - by destruct (utils_GetDeviceInfo_Platform env).
    - destruct (exec_launch env (Location li) args s1) as (o & h & -> & _ & _ & Ho).
      exact Ho. }
  destruct (GetLocalReleaseInfo_in (localConfig st) v) as [e|li] eqn:Hget;
    [|by eapply Hres].
  assert (VersionIsInstalled_in (localConfig st) v = false) as Hno.
  { revert Hget. unfold VersionIsInstalled_in, GetLocalReleaseInfo_in.
    destruct (LocalInstallations (localConfig st) !! v); [done|].
    by destruct (LocalInstallations (localConfig st) !! ("v" +:+ v)). }
  destruct (Run_unresolved env st v args Hno)
    as (s1 & [(e' & ->)|[->|[(li & Hget1) ->]]]).
  - by destruct (utils_GetDeviceInfo_Platform env).
  - by destruct (utils_GetDeviceInfo_Platform env).
  - by eapply Hres.
Qed.



(** X16. An installation date that does not parse counts as long ago:
    once the clock is more than 24 hours past the zero time, Run on a
    "nightly" entry whose date does not parse performs a re-install
    every time - after reading the clock it runs InstallVersion and
    launches only if that returned nil - which starts exactly one
    installation. *)
Theorem unparsable_date_is_stale (env : Env) (st : state) (v : string)
    (args : list string) (li : LocalInstallationInfo) :
  GetLocalReleaseInfo v st = (Returns (inr li), st) →
  Version li = "nightly" →
  time_Parse_RFC3339 env (InstallationDate li) = None →
  (24 * Hour < time_Now env (past st))%Z →
  Run env v args st
  = reinstall_then_launch env v li args (with_past st (past st ++ [EvNow]))
  ∧ installs_started (past (Run env v args st).2)
    = installs_started (past st) + 1.
Proof.
  intros Hget Hver Hparse Hnow.
  assert (stale_rolling env li (time_Now env (past st))) as Hstale.
  { split; [done|]. unfold installedAt. rewrite Hparse. simpl.
    unfold zeroTime. lia. }
  split.
  - rewrite GetLocalReleaseInfo_run in Hget. injection Hget as Hget.
    rewrite (Run_installed_run env st v args li Hget).
    by rewrite decide_True.
  - destruct (Run_installed_history env st v args li Hget)
      as (hi & hl & -> & Hcount & _ & _ & Hl).
    rewrite decide_True in Hcount by done.
    rewrite !installs_started_app, Hcount, Hl. simpl. lia.
Qed.

Lemma unparsable_date_is_stale_witness :
  ∃ st',
    Run (env_at (25 * Hour)%Z) "nightly" [] (fresh (cfg_nightly "yesterday"))
    = (Replaced, st')
    ∧ past st'
      = [EvNow; EvGetRelease "nightly";
         EvGetResponseBodyFrom "https://releases.example/nightly";
         EvWriteFile "/home/u/.duckman/versions/duckdb-nightly" [];
         EvNow;
         EvWriteFile "/home/u/.duckman/config.json" [];
         EvExec "/d/duckdb-nightly" ["/d/duckdb-nightly"]].
Proof.
  destruct (unparsable_date_is_stale (env_at (25 * Hour)%Z)
              (fresh (cfg_nightly "yesterday")) "nightly" []
              {| Version := "nightly"; Location := "/d/duckdb-nightly";
                 InstallationDate := "yesterday" |}
              eq_refl eq_refl eq_refl ltac:(by vm_compute)) as [-> _].
  eexists. split; [vm_compute; reflexivity|]. reflexivity.
Defined.

(** ** The advisory and the install command *)

(** X14. ShowUpdateWarning never touches the inventory.  It asks the
    client once, with a timeout of 100 ms, and then prints at most one
    line, the advisory; it prints it exactly when the client answered,
    both versions parse and the remote one is greater.  When the client
    fails it returns without printing. *)
Theorem update_warning_is_harmless (env : Env) (st : state) :
  let timeout := (Millisecond * 100)%Z in
  let asked := past st ++ [EvLatestDuckVmRelease timeout] in
  let r := ShowUpdateWarning env st in
  localConfig r.2 = localConfig st
  ∧ (past r.2 = asked ∨ past r.2 = asked ++ [EvPrintln updateAdvisory])
  ∧ (past r.2 = asked ++ [EvPrintln updateAdvisory]
     ↔ ∃ release remoteVersion localVersion,
         client_LatestDuckVmRelease env (past st) timeout = inr release
         ∧ NewVersion (version_lib env) (Release_Version release)
           = Some remoteVersion
         ∧ NewVersion (version_lib env) (config_Version env)
           = Some localVersion
         ∧ GreaterThan (version_lib env) remoteVersion localVersion = true)
  ∧ (∀ e, client_LatestDuckVmRelease env (past st) timeout = inl e →
          r = (Returns tt, with_past st asked)).
Proof.
  intros timeout asked r.
  assert (∀ x : event, asked ≠ asked ++ [x]) as Hne.
  { intros x Heq. apply (f_equal length) in Heq.
    rewrite length_app in Heq. simpl in Heq. lia. }
  pose proof (ShowUpdateWarning_cases env st) as Hcases. simpl in Hcases.
  fold timeout asked r in Hcases.
  destruct (client_LatestDuckVmRelease env (past st) timeout)
    as [e|release] eqn:Hclient.
  { rewrite Hcases. simpl. split_and!; try done; [by left|].
    split; [by intros ?%Hne | by intros (? & ? & ? & ? & _)]. }
  destruct (NewVersion (version_lib env) (Release_Version release))
    as [rv|] eqn:Hrv.
  2: { rewrite Hcases. simpl. split_and!; try done; [by left|].
       split; [by intros ?%Hne | by intros (? & ? & ? & [= <-] & ? & _); congruence]. }
  destruct (NewVersion (version_lib env) (config_Version env))
    as [lv|] eqn:Hlv.
  2: { rewrite Hcases. simpl. split_and!; try done; [by left|].
       split; [by intros ?%Hne | by intros (? & ? & ? & _ & _ & ? & _)]. }
  rewrite Hcases.
  destruct (GreaterThan (version_lib env) rv lv) eqn:Hgt; simpl.
  - split_and!; try done; [by right|]. split; [|done].
    intros _. exists release, rv, lv. by split_and!.
  - split_and!; try done; [by left|].
    split; [by intros ?%Hne|].
    intros (? & ? & ? & [= <-] & Hrv' & Hlv' & Hgt'). congruence.
Qed.

(** X15. The install command checks for a newer manager only after a
    successful installation.  When InstallVersion fails the command ends
    with that error and asks nothing more.  When it succeeds, the
    command goes on to the update check, which leaves the inventory as
    InstallVersion left it; the command then returns, or panics in the
    check. *)
Theorem install_command_checks_after_success (env : Env) (version : string)
    (rest : list string) (st : state) :
  ∃ r st1,
    InstallVersion env version st = (Returns r, st1)
    ∧ localConfig (installCmd_Run env (version :: rest) st).2 = localConfig st1
    ∧ match r with
      | Some e =>
          installCmd_Run env (version :: rest) st = (Returns (Some e), st1)
      | None =>
          (∃ h, past (installCmd_Run env (version :: rest) st).2
                = past st1 ++ EvLatestDuckVmRelease (Millisecond * 100)%Z :: h)
          ∧ ((installCmd_Run env (version :: rest) st).1 = Returns None
             ∨ (installCmd_Run env (version :: rest) st).1 = Panics)
      end.
Proof.
  destruct (InstallVersion_effect env version st) as (r & h & c' & Heq & _ & _).
  eexists r, _. split; [exact Heq|].
  unfold installCmd_Run. unfold_M. rewrite Heq.
  destruct r as [e|]; [done|]. simpl.
  match goal with |- context [ShowUpdateWarning env ?s] =>
    pose proof (ShowUpdateWarning_cases env s) as Hcases end.
  simpl in Hcases.
  destruct (client_LatestDuckVmRelease env _ _) as [e|release].
  { rewrite Hcases. simpl. split_and!; eauto; by exists []. }
  destruct (NewVersion _ (Release_Version release)).
  2: { rewrite Hcases. simpl. split_and!; eauto; by exists []. }
  destruct (NewVersion _ (config_Version env)).
  2: { rewrite Hcases. simpl. split_and!; eauto; by exists []. }
  rewrite Hcases.
  destruct (GreaterThan _ _ _); simpl; split_and!; eauto;
    first [by exists [] | eexists [_]; by rewrite <-app_assoc].
Qed.

(** ** One more fact on UninstallVersion *)

(** X18. UninstallVersion touches one entry at most.  Whatever it does
    - return nil, return an error or panic - every key other than the
    version of the entry that v resolves to keeps its entry; when v does
    not resolve, the whole inventory is as before. *)
Theorem uninstall_touches_one_entry (env : Env) (v : string) (st : state) :
  let st' := (UninstallVersion env v st).2 in
  match GetLocalReleaseInfo_in (localConfig st) v with
  | inl _ => localConfig st' = localConfig st
  | inr li =>
      ∀ k, k ≠ Version li →
           LocalInstallations (localConfig st') !! k
           = LocalInstallations (localConfig st) !! k
  end.
Proof.
  apply (wp_final (UninstallVersion env v)
           (λ s, match GetLocalReleaseInfo_in (localConfig st) v with
                 | inl _ => localConfig s = localConfig st
                 | inr li =>
                     ∀ k, k ≠ Version li →
                          LocalInstallations (localConfig s) !! k
                          = LocalInstallations (localConfig st) !! k
                 end)).
  unfold UninstallVersion. wp_exact.
  destruct (GetLocalReleaseInfo_in (localConfig st) v) as [e|li] eqn:Hget.
  { assert (VersionIsInstalled_in (localConfig st) v = false) as ->; [|done].
    revert Hget. unfold VersionIsInstalled_in, GetLocalReleaseInfo_in.
    destruct (LocalInstallations (localConfig st) !! v); [done|].
    by destruct (LocalInstallations (localConfig st) !! ("v" +:+ v)). }
  destruct (VersionIsInstalled_in (localConfig st) v); simpl;
    wp_exact; [|done].
  rewrite Hget. wp_exact.
  case_bool_decide;
    [apply wp_SetDefaultVersion_None; intros [e|] h c' Hc _; simpl|];
    wp_exact; try done.
  1: by destruct Hc as [->| ->].
  all: match goal with |- context [os_Remove ?ev ?h ?n] =>
         destruct (os_Remove ev h n) as [e|];
           [destruct (os_IsNotExist e); simpl|] end;
       wp_exact; try done.
  all: try (by destruct Hc as [->| ->]).
  all: intros k Hk; rewrite lookup_delete_ne by done;
       try done; by destruct Hc as [->| ->].
Qed.
